(** * Attestation application id: a shallow embedding of
      keystore/keystore_attestation_id.cpp

    The development follows the source file top to bottom:
    - the byte-level helpers and the two library primitives the file calls
      (SHA-256 and the DER emitter that the ASN.1 template macros generate);
    - [build_attestation_package_info] and
      [build_attestation_application_id], the size-bounded encoder;
    - the provider connection ([get_service], [reset_service]) and
      [gather_attestation_application_id], written in a small state monad
      over a world that records every observable action. *)

From Stdlib.Strings Require Import String Byte.
From Stdlib Require Import List NArith ZArith Lia Bool Permutation Sorted.
Import ListNotations.

Local Open Scope N_scope.

(* ===================================================================== *)
(** ** Bytes *)
(* ===================================================================== *)

Definition bytes := list byte.

(** [uint8_t] truncation of a natural number. *)
Definition byte_of_N (n : N) : byte :=
  match Byte.of_N (n mod 256) with
  | Some b => b
  | None => x00
  end.

(** [be_split k n] is the big-endian image of the low [k] bytes of [n]. *)
Fixpoint be_split (k : nat) (n : N) : bytes :=
  match k with
  | O => []
  | S k' => be_split k' (N.shiftr n 8) ++ [byte_of_N n]
  end.

(** Number of bytes needed for the magnitude of [n] ([BN_num_bytes]). *)
Definition num_bytes (n : N) : nat := N.to_nat ((N.size n + 7) / 8).

(** [memcmp]-style comparison of two byte strings: the first differing byte
    decides, and a proper prefix comes first. *)
Fixpoint bytes_leb (a b : bytes) : bool :=
  match a, b with
  | [], _ => true
  | _ :: _, [] => false
  | x :: a', y :: b' =>
      if Byte.to_N x <? Byte.to_N y then true
      else if Byte.to_N y <? Byte.to_N x then false
      else bytes_leb a' b'
  end.

Definition bytes_eqb (a b : bytes) : bool :=
  if list_eq_dec Byte.byte_eq_dec a b then true else false.

(* ===================================================================== *)
(** ** SHA-256 *)
(* ===================================================================== *)

Module SHA.

(** Modelled from the spec: the SHA-256 primitive ([SHA256] of the crypto
    library, called by [signature2SHA256]) is not part of the source file; the
    spec treats it as a pure function from bytes to 32 bytes.  It is written
    out here after FIPS 180-4 so that the model runs; the two examples at the
    end of the module check it against the standard test vectors. *)

Definition w32 (x : N) : N := x mod 2 ^ 32.
Definition add32 (x y : N) : N := w32 (x + y).
Definition not32 (x : N) : N := N.lxor (w32 x) (2 ^ 32 - 1).
Definition rotr (n x : N) : N :=
  N.lor (N.shiftr x n) (w32 (N.shiftl x (32 - n))).

Definition Ch (x y z : N) : N := N.lxor (N.land x y) (N.land (not32 x) z).
Definition Maj (x y z : N) : N :=
  N.lxor (N.lxor (N.land x y) (N.land x z)) (N.land y z).
Definition Sigma0 (x : N) : N := N.lxor (N.lxor (rotr 2 x) (rotr 13 x)) (rotr 22 x).
Definition Sigma1 (x : N) : N := N.lxor (N.lxor (rotr 6 x) (rotr 11 x)) (rotr 25 x).
Definition sigma0 (x : N) : N := N.lxor (N.lxor (rotr 7 x) (rotr 18 x)) (N.shiftr x 3).
Definition sigma1 (x : N) : N := N.lxor (N.lxor (rotr 17 x) (rotr 19 x)) (N.shiftr x 10).

(** The first 64 primes; the round constants are the first 32 bits of the
    fractional parts of their cube roots, the initial hash value those of the
    square roots of the first eight. *)
Definition primes64 : list N :=
  [2; 3; 5; 7; 11; 13; 17; 19; 23; 29; 31; 37; 41; 43; 47; 53;
   59; 61; 67; 71; 73; 79; 83; 89; 97; 101; 103; 107; 109; 113; 127; 131;
   137; 139; 149; 151; 157; 163; 167; 173; 179; 181; 191; 193; 197; 199; 211; 223;
   227; 229; 233; 239; 241; 251; 257; 263; 269; 271; 277; 281; 283; 293; 307; 311].

(** Integer cube root by bisection on the bits of the result. *)
Fixpoint cbrt_bits (k : nat) (acc n : N) : N :=
  match k with
  | O => acc
  | S k' =>
      let c := N.lor acc (N.shiftl 1 (N.of_nat k')) in
      cbrt_bits k' (if c * c * c <=? n then c else acc) n
  end.

Definition frac_cbrt32 (p : N) : N := w32 (cbrt_bits 40 0 (N.shiftl p 96)).
Definition frac_sqrt32 (p : N) : N := w32 (N.sqrt (N.shiftl p 64)).

Definition K256 : list N := Eval vm_compute in map frac_cbrt32 primes64.
Definition H0 : list N := Eval vm_compute in map frac_sqrt32 (firstn 8 primes64).

(** Padding: a one bit, zeros up to 56 mod 64, the bit length on 8 bytes. *)
Definition pad (msg : bytes) : bytes :=
  let len := N.of_nat (length msg) in
  let zeros := N.to_nat ((119 - len mod 64) mod 64) in
  msg ++ [x80] ++ repeat x00 zeros ++ be_split 8 (8 * len).

Fixpoint be_combine (bs : bytes) (acc : N) : N :=
  match bs with
  | [] => acc
  | b :: bs' => be_combine bs' (256 * acc + Byte.to_N b)
  end.

(** Cut a byte string into 32-bit big-endian words. *)
Fixpoint words_of (fuel : nat) (bs : bytes) : list N :=
  match fuel, bs with
  | S fuel', b0 :: b1 :: b2 :: b3 :: rest =>
      be_combine [b0; b1; b2; b3] 0 :: words_of fuel' rest
  | _, _ => []
  end.

(** Message schedule; [w] holds the words computed so far, newest first. *)
Fixpoint schedule (k : nat) (w : list N) : list N :=
  match k with
  | O => rev w
  | S k' =>
      let x := add32 (add32 (sigma1 (nth 1 w 0)) (nth 6 w 0))
                     (add32 (sigma0 (nth 14 w 0)) (nth 15 w 0)) in
      schedule k' (x :: w)
  end.

Record state := mkState { sa : N; sb : N; sc : N; sd : N; se : N; sf : N; sg : N; sh : N }.

Definition round (s : state) (kw : N * N) : state :=
  let t1 := add32 (add32 (add32 (sh s) (Sigma1 (se s))) (Ch (se s) (sf s) (sg s)))
                  (add32 (fst kw) (snd kw)) in
  let t2 := add32 (Sigma0 (sa s)) (Maj (sa s) (sb s) (sc s)) in
  mkState (add32 t1 t2) (sa s) (sb s) (sc s) (add32 (sd s) t1) (se s) (sf s) (sg s).

Definition compress (s : state) (block : list N) : state :=
  let w := schedule 48 (rev block) in
  let r := fold_left round (combine K256 w) s in
  mkState (add32 (sa s) (sa r)) (add32 (sb s) (sb r)) (add32 (sc s) (sc r))
          (add32 (sd s) (sd r)) (add32 (se s) (se r)) (add32 (sf s) (sf r))
          (add32 (sg s) (sg r)) (add32 (sh s) (sh r)).

Fixpoint blocks (fuel : nat) (ws : list N) (s : state) : state :=
  match fuel, ws with
  | S fuel', _ :: _ => blocks fuel' (skipn 16 ws) (compress s (firstn 16 ws))
  | _, _ => s
  end.

Definition init : state :=
  mkState (nth 0 H0 0) (nth 1 H0 0) (nth 2 H0 0) (nth 3 H0 0)
          (nth 4 H0 0) (nth 5 H0 0) (nth 6 H0 0) (nth 7 H0 0).

Definition SHA256 (msg : bytes) : bytes :=
  let p := pad msg in
  let s := blocks (length p) (words_of (length p) p) init in
  be_split 4 (sa s) ++ be_split 4 (sb s) ++ be_split 4 (sc s) ++ be_split 4 (sd s)
  ++ be_split 4 (se s) ++ be_split 4 (sf s) ++ be_split 4 (sg s) ++ be_split 4 (sh s).

Definition SHA256_DIGEST_LENGTH : nat := 32.

(** FIPS 180-4 test vectors: the empty message, "abc", and the message of
    56 bytes, whose padding takes a second block. *)
Example SHA256_empty :
  map Byte.to_N (SHA256 [])
  = [227; 176; 196; 66; 152; 252; 28; 20; 154; 251; 244; 200; 153; 111; 185; 36;
     39; 174; 65; 228; 100; 155; 147; 76; 164; 149; 153; 27; 120; 82; 184; 85].
Proof. vm_compute. reflexivity. Qed.

Example SHA256_abc :
  map Byte.to_N (SHA256 (list_byte_of_string "abc"))
  = [186; 120; 22; 191; 143; 1; 207; 234; 65; 65; 64; 222; 93; 174; 34; 35;
     176; 3; 97; 163; 150; 23; 122; 156; 180; 16; 255; 97; 242; 0; 21; 173].
Proof. vm_compute. reflexivity. Qed.

Example SHA256_two_blocks :
  map Byte.to_N
    (SHA256 (list_byte_of_string "abcdbcdecdefdefgefghfghighijhijkijkljklmklmnlmnomnopnopq"))
  = [36; 141; 106; 97; 210; 6; 56; 184; 229; 192; 38; 147; 12; 62; 96; 57;
     163; 60; 228; 89; 100; 255; 33; 103; 246; 236; 237; 212; 25; 219; 6; 193].
Proof. vm_compute. reflexivity. Qed.

End SHA.

(* ===================================================================== *)
(** ** DER *)
(* ===================================================================== *)

Module DER.

(** Modelled from the spec: the emitter [i2d_KM_ATTESTATION_APPLICATION_ID] is
    generated by the crypto library's [IMPLEMENT_ASN1_FUNCTIONS] macro from
    the two [ASN1_SEQUENCE] templates of the source file; the macro's
    expansion is not part of the source.  The definitions below follow the
    spec (4.1 and 6): definite, minimal length octets, INTEGER in the
    shortest two's-complement form of a non-negative number, and the members
    of a SET OF written in ascending order of their encodings. *)

Definition der_length (n : N) : bytes :=
  if n <? 128 then [byte_of_N n]
  else let k := num_bytes n in byte_of_N (128 + N.of_nat k) :: be_split k n.

Definition tlv (tag : byte) (content : bytes) : bytes :=
  tag :: der_length (N.of_nat (length content)) ++ content.

(** Content octets of a non-negative INTEGER: the magnitude, with a leading
    zero octet when its top bit is set; a single zero octet for 0. *)
Definition integer_content (v : N) : bytes :=
  if v =? 0 then [x00]
  else
    let k := num_bytes v in
    if N.testbit v (8 * N.of_nat k - 1) then x00 :: be_split k v else be_split k v.

Definition octet_string (s : bytes) : bytes := tlv x04 s.
Definition integer (v : N) : bytes := tlv x02 (integer_content v).
Definition sequence (content : bytes) : bytes := tlv x30 content.

Fixpoint insert_sorted (x : bytes) (l : list bytes) : list bytes :=
  match l with
  | [] => [x]
  | y :: l' => if bytes_leb x y then x :: l else y :: insert_sorted x l'
  end.

Definition sort_members (l : list bytes) : list bytes :=
  fold_right insert_sorted [] l.

Definition set_of (members : list bytes) : bytes :=
  tlv x31 (concat (sort_members members)).

End DER.

(* ===================================================================== *)
(** ** The provider's data and the ASN.1 structures *)
(* ===================================================================== *)

(** [security::keystore::Signature]: the signing certificate, as bytes. *)
Record Signature := mkSignature { data : bytes }.

(** [KeyAttestationPackageInfo].  The source only ever reads [packageName]
    through [String8(packageName)], so the field holds that UTF-8 image.
    [None] is the state the source's test [!pinfo->packageName] guards
    against; a name that was set, as every name the provider sends is, is
    [Some].  [versionCode] is a signed 64-bit value. *)
Record KeyAttestationPackageInfo := mkPackageInfo {
  packageName : option bytes;
  versionCode : Z;
  signatures : list Signature
}.

Record KeyAttestationApplicationId := mkApplicationId {
  packageInfos : list KeyAttestationPackageInfo
}.

(** [KM_ATTESTATION_PACKAGE_INFO]: an OCTET STRING and an INTEGER. *)
Record KM_ATTESTATION_PACKAGE_INFO := mkKmPackageInfo {
  package_name : bytes;
  version : N
}.

(** [KM_ATTESTATION_APPLICATION_ID]: the two stacks, in push order. *)
Record KM_ATTESTATION_APPLICATION_ID := mkKmApplicationId {
  package_infos : list KM_ATTESTATION_PACKAGE_INFO;
  signature_digests : list bytes
}.

(** The status codes the file returns.  [StatusOr] carries either one of
    them or a value. *)
Inductive status_code :=
| BAD_VALUE
| NO_MEMORY
| UNKNOWN_ERROR
| GET_ATTESTATION_APPLICATION_ID_FAILED.

Inductive StatusOr (A : Type) :=
| Err (rc : status_code)
| Val (v : A).
Arguments Err {A} rc.
Arguments Val {A} v.

Definition isOk {A} (r : StatusOr A) : bool :=
  match r with Val _ => true | Err _ => false end.

(** Size estimates, as the source states them. *)
Definition AAID_PKG_INFO_OVERHEAD : N := 15.
Definition AAID_SIGNATURE_SIZE : N := 34.
Definition AAID_GENERAL_OVERHEAD : N := 16.

(** Modelled from the spec: [KEY_ATTESTATION_APPLICATION_ID_MAX_SIZE] is
    declared in keystore_attestation_id.h, which is not part of the source;
    the spec (6) gives MAX_SIZE = 1024. *)
Definition KEY_ATTESTATION_APPLICATION_ID_MAX_SIZE : N := 1024.

(** [size_t] arithmetic on an LP64 target. *)
Definition SIZE_BITS : N := 64.
Definition size_t_add (a b : N) : N := (a + b) mod 2 ^ SIZE_BITS.

(** [std::string(p)] for a NUL-terminated [p]: the bytes before the first
    zero byte. *)
Fixpoint c_str (s : bytes) : bytes :=
  match s with
  | [] => []
  | b :: s' => if Byte.eqb b x00 then [] else b :: c_str s'
  end.

Definition string_size (s : bytes) : N := N.of_nat (length s).

(** [static_cast<uint64_t>] of a signed 64-bit value. *)
Definition to_uint64 (v : Z) : N := Z.to_N (v mod 2 ^ 64).

(* ===================================================================== *)
(** ** The encoder *)
(* ===================================================================== *)

Definition signature2SHA256 (sig : Signature) : bytes := SHA.SHA256 (data sig).

(** [i2d_KM_ATTESTATION_PACKAGE_INFO] and
    [i2d_KM_ATTESTATION_APPLICATION_ID], following the two templates. *)
Definition i2d_KM_ATTESTATION_PACKAGE_INFO (p : KM_ATTESTATION_PACKAGE_INFO) : bytes :=
  DER.sequence (DER.octet_string (package_name p) ++ DER.integer (version p)).

Definition i2d_KM_ATTESTATION_APPLICATION_ID (a : KM_ATTESTATION_APPLICATION_ID) : bytes :=
  DER.sequence
    (DER.set_of (map i2d_KM_ATTESTATION_PACKAGE_INFO (package_infos a))
     ++ DER.set_of (map DER.octet_string (signature_digests a))).

(** [build_attestation_package_info].  The caller always passes a pointer,
    and the allocation and library failures ([NO_MEMORY], [UNKNOWN_ERROR])
    have no cause in the model; the only failure left is the missing name. *)
Definition build_attestation_package_info (pinfo : KeyAttestationPackageInfo)
  : StatusOr KM_ATTESTATION_PACKAGE_INFO :=
  match packageName pinfo with
  | None => Err BAD_VALUE
  | Some name =>
      let pkg_name := c_str name in
      Val (mkKmPackageInfo pkg_name (to_uint64 (versionCode pinfo)))
  end.

(** The loop over [packageInfos]: the running estimate and the stack are the
    loop's state; [break] leaves with the estimate already increased. *)
Fixpoint package_loop (pinfos : list KeyAttestationPackageInfo)
    (estimated_encoded_size : N) (stack : list KM_ATTESTATION_PACKAGE_INFO)
  : StatusOr (N * list KM_ATTESTATION_PACKAGE_INFO) :=
  match pinfos with
  | [] => Val (estimated_encoded_size, stack)
  | pinfo :: rest =>
      match packageName pinfo with
      | None => Err BAD_VALUE
      | Some name =>
          let package_name := c_str name in
          match build_attestation_package_info pinfo with
          | Err rc => Err rc
          | Val attestation_package_info =>
              let est := size_t_add estimated_encoded_size
                           (size_t_add AAID_PKG_INFO_OVERHEAD (string_size package_name)) in
              if KEY_ATTESTATION_APPLICATION_ID_MAX_SIZE <? est
              then Val (est, stack)
              else package_loop rest est (stack ++ [attestation_package_info])
          end
      end
  end.

(** The loop over the digests of the first package. *)
Fixpoint digest_loop (digests : list bytes) (estimated_encoded_size : N)
    (stack : list bytes) : N * list bytes :=
  match digests with
  | [] => (estimated_encoded_size, stack)
  | si :: rest =>
      let est := size_t_add estimated_encoded_size AAID_SIGNATURE_SIZE in
      if KEY_ATTESTATION_APPLICATION_ID_MAX_SIZE <? est
      then (est, stack)
      else digest_loop rest est (stack ++ [si])
  end.

(** The structure handed to [i2d_KM_ATTESTATION_APPLICATION_ID]: everything
    [build_attestation_application_id] does before it serialises. *)
Definition build_KM_ATTESTATION_APPLICATION_ID (key_attestation_id : KeyAttestationApplicationId)
  : StatusOr KM_ATTESTATION_APPLICATION_ID :=
  match packageInfos key_attestation_id with
  | [] => Err BAD_VALUE
  | pinfo :: _ =>
      match package_loop (packageInfos key_attestation_id) AAID_GENERAL_OVERHEAD [] with
      | Err rc => Err rc
      | Val (est, pinfo_stack) =>
          let digests := map signature2SHA256 (signatures pinfo) in
          let '(_, digest_stack) := digest_loop digests est [] in
          Val (mkKmApplicationId pinfo_stack digest_stack)
      end
  end.

(** [build_attestation_application_id]: the structure, then its bytes.  The
    emitter is total here, so the two exits on a negative length are not
    taken. *)
Definition build_attestation_application_id (key_attestation_id : KeyAttestationApplicationId)
  : StatusOr bytes :=
  match build_KM_ATTESTATION_APPLICATION_ID key_attestation_id with
  | Err rc => Err rc
  | Val attestation_id => Val (i2d_KM_ATTESTATION_APPLICATION_ID attestation_id)
  end.

(* ===================================================================== *)
(** ** The provider connection and the gatherer *)
(* ===================================================================== *)

Definition kAttestationSystemPackageName : bytes := list_byte_of_string "AndroidSystem".
Definition kMaxAttempts : nat := 3.
Definition kRetryIntervalUsecs : N := 500000.

(** Modelled from the spec: [AID_SYSTEM] and [AID_ROOT] come from
    private/android_filesystem_config.h, which is not part of the source; the
    spec (6) gives SYSTEM = 1000 and ROOT = 0. *)
Definition AID_SYSTEM : N := 1000.
Definition AID_ROOT : N := 0.

(** [binder::Status], by the cases the retry loop distinguishes: [isOk()],
    [EX_SERVICE_SPECIFIC] with its service specific code,
    [EX_TRANSACTION_FAILED], and any other exception code; the code carried
    by [EX_OTHER] stands for one that is none of the first three. *)
Inductive binder_Status :=
| EX_NONE
| EX_SERVICE_SPECIFIC (serviceSpecificErrorCode : Z)
| EX_TRANSACTION_FAILED
| EX_OTHER (exceptionCode : Z).

Definition status_isOk (s : binder_Status) : bool :=
  match s with EX_NONE => true | _ => false end.

Definition is_transaction_failed (s : binder_Status) : bool :=
  match s with EX_TRANSACTION_FAILED => true | _ => false end.

(** What a run of the gatherer does to its environment, oldest first. *)
Inductive event :=
| WaitForService
| GetKeyAttestationApplicationId (uid : N)
| ResetService
| Usleep (usecs : N).

(** The world of one thread: the cached proxy [gService] (the number of the
    connection it stands for), the provider's answer to each call by the
    number of calls made before it, and the actions performed so far. *)
Record world := mkWorld {
  gService : option nat;
  connections : nat;
  calls : nat;
  provider : nat -> N -> binder_Status * KeyAttestationApplicationId;
  trace : list event
}.

Definition M (A : Type) : Type := world -> A * world.
Definition ret {A} (a : A) : M A := fun w => (a, w).
Definition bind {A B} (m : M A) (f : A -> M B) : M B :=
  fun w => let '(a, w') := m w in f a w'.

Declare Scope m_scope.
Delimit Scope m_scope with m.
Notation "x <- m ;; f" := (bind m (fun x => f))
  (at level 61, m at next level, right associativity) : m_scope.
Notation "m ;; f" := (bind m (fun _ => f))
  (at level 61, right associativity) : m_scope.
Local Open Scope m_scope.

Definition log (e : event) : M unit :=
  fun w => (tt, mkWorld (gService w) (connections w) (calls w) (provider w) (trace w ++ [e])).

(** [get_service]: connect on first use, then hand out the cached proxy. *)
Definition get_service : M nat :=
  fun w =>
    match gService w with
    | Some pm => (pm, w)
    | None =>
        let pm := connections w in
        (pm, mkWorld (Some pm) (S pm) (calls w) (provider w) (trace w ++ [WaitForService]))
    end.

(** [reset_service]: drop the global reference. *)
Definition reset_service : M unit :=
  fun w => (tt, mkWorld None (connections w) (calls w) (provider w) (trace w ++ [ResetService])).

(** [pm->getKeyAttestationApplicationId(uid, &out)]. *)
Definition getKeyAttestationApplicationId (pm : nat) (uid : N)
  : M (binder_Status * KeyAttestationApplicationId) :=
  fun w =>
    (provider w (calls w) uid,
     mkWorld (gService w) (connections w) (S (calls w)) (provider w)
             (trace w ++ [GetKeyAttestationApplicationId uid])).

Definition usleep (usecs : N) : M unit := log (Usleep usecs).

(** The retry loop, by the number of attempts still allowed.  The out
    parameter is written only by a call that succeeds. *)
Fixpoint retry_loop (attempts : nat) (uid : N) (status : binder_Status)
    (key_attestation_id : KeyAttestationApplicationId)
  : M (binder_Status * KeyAttestationApplicationId) :=
  match attempts with
  | O => ret (status, key_attestation_id)
  | S attempts' =>
      pm <- get_service ;;
      r <- getKeyAttestationApplicationId pm uid ;;
      let status := fst r in
      if status_isOk status then ret (status, snd r)
      else
        match status with
        | EX_SERVICE_SPECIFIC _ => ret tt
        | EX_TRANSACTION_FAILED => reset_service
        | _ => ret tt
        end ;;
        usleep kRetryIntervalUsecs ;;
        retry_loop attempts' uid status key_attestation_id
  end.

Definition system_package_info : KeyAttestationPackageInfo :=
  mkPackageInfo (Some kAttestationSystemPackageName) 1 [].

Definition gather_attestation_application_id (uid : N) : M (StatusOr bytes) :=
  if (uid =? AID_SYSTEM) || (uid =? AID_ROOT) then
    let key_attestation_id := mkApplicationId ([] ++ [system_package_info]) in
    ret (build_attestation_application_id key_attestation_id)
  else
    r <- retry_loop kMaxAttempts uid EX_NONE (mkApplicationId []) ;;
    if negb (status_isOk (fst r)) then ret (Err GET_ATTESTATION_APPLICATION_ID_FAILED)
    else ret (build_attestation_application_id (snd r)).

(* ===================================================================== *)
(** ** Specification-side notions *)
(* ===================================================================== *)

(** The length the source adds to the estimate for a package. *)
Definition name_size (p : KeyAttestationPackageInfo) : N :=
  match packageName p with
  | Some name => string_size (c_str name)
  | None => 0
  end.

(** The fully built [AttestationPackageInfo] of a package. *)
Definition km_info_of (p : KeyAttestationPackageInfo) : KM_ATTESTATION_PACKAGE_INFO :=
  mkKmPackageInfo
    (match packageName p with Some name => c_str name | None => [] end)
    (to_uint64 (versionCode p)).

Fixpoint packages_cost (pkgs : list KeyAttestationPackageInfo) : N :=
  match pkgs with
  | [] => 0
  | p :: rest => AAID_PKG_INFO_OVERHEAD + name_size p + packages_cost rest
  end.

(** The cumulative estimate of a list of packages, in unbounded arithmetic. *)
Definition estimate (pkgs : list KeyAttestationPackageInfo) : N :=
  AAID_GENERAL_OVERHEAD + packages_cost pkgs.

(** Valid input of the encoder: at least one package, each with a name. *)
Definition valid_input (id : KeyAttestationApplicationId) : Prop :=
  packageInfos id <> [] /\ Forall (fun p => packageName p <> None) (packageInfos id).

(** No [std::string] holds 2^63 bytes or more, so the [size_t] sums of the
    encoder do not wrap.  The bound is a fact about every string the program
    can hold; it is a hypothesis here because a list has no such limit. *)
Definition names_in_memory (id : KeyAttestationApplicationId) : Prop :=
  Forall (fun p => name_size p < 2 ^ 63) (packageInfos id).

(** The value of [estimated_encoded_size] when the package loop is left. *)
Definition estimate_after_packages (id : KeyAttestationApplicationId) : N :=
  match package_loop (packageInfos id) AAID_GENERAL_OVERHEAD [] with
  | Val (est, _) => est
  | Err _ => 0
  end.

Definition first_signatures (id : KeyAttestationApplicationId) : list Signature :=
  match packageInfos id with
  | [] => []
  | pinfo :: _ => signatures pinfo
  end.

(** The estimate of what was encoded. *)
Fixpoint km_packages_cost (ps : list KM_ATTESTATION_PACKAGE_INFO) : N :=
  match ps with
  | [] => 0
  | p :: rest => AAID_PKG_INFO_OVERHEAD + string_size (package_name p) + km_packages_cost rest
  end.

Definition included_estimate (a : KM_ATTESTATION_APPLICATION_ID) : N :=
  AAID_GENERAL_OVERHEAD + km_packages_cost (package_infos a)
  + AAID_SIGNATURE_SIZE * N.of_nat (length (signature_digests a)).








(** The provider's answers to the next [n] calls, in order. *)
Definition replies (w : world) (uid : N) (n : nat)
  : list (binder_Status * KeyAttestationApplicationId) :=
  map (fun i => provider w (calls w + i)%nat uid) (seq 0 n).

(** The retry policy of the spec (4.3, step 2) as the source carries it out,
    given the statuses of the successive answers: connect when there is no
    proxy, call, stop on [Ok]; otherwise drop the proxy after a transaction
    failure, sleep (after the last answer too), and go on. *)
Fixpoint retry_policy (uid : N) (connected : bool) (statuses : list binder_Status)
  : list event :=
  match statuses with
  | [] => []
  | s :: rest =>
      (if connected then [] else [WaitForService])
      ++ GetKeyAttestationApplicationId uid
      :: match s with
         | EX_NONE => []
         | EX_TRANSACTION_FAILED =>
             ResetService :: Usleep kRetryIntervalUsecs :: retry_policy uid false rest
         | _ => Usleep kRetryIntervalUsecs :: retry_policy uid true rest
         end
  end.

(** What the loop hands on: the first [Ok] answer, or the last status with
    the out parameter untouched. *)
Fixpoint retry_result (answers : list (binder_Status * KeyAttestationApplicationId))
    (status : binder_Status) (key_attestation_id : KeyAttestationApplicationId)
  : binder_Status * KeyAttestationApplicationId :=
  match answers with
  | [] => (status, key_attestation_id)
  | r :: rest =>
      if status_isOk (fst r) then r else retry_result rest (fst r) key_attestation_id
  end.

Definition connected (w : world) : bool :=
  match gService w with Some _ => true | None => false end.

Definition is_rpc (e : event) : bool :=
  match e with GetKeyAttestationApplicationId _ => true | _ => false end.
Definition is_reset (e : event) : bool :=
  match e with ResetService => true | _ => false end.
Definition is_sleep (e : event) : bool :=
  match e with Usleep _ => true | _ => false end.

Definition count_events (f : event -> bool) (t : list event) : nat := length (filter f t).

Definition unprivileged (uid : N) : Prop := uid <> AID_SYSTEM /\ uid <> AID_ROOT.

(** The input the gatherer makes up for system callers. *)
Definition system_application_id : KeyAttestationApplicationId :=
  mkApplicationId [mkPackageInfo (Some (list_byte_of_string "AndroidSystem")) 1 []].

Definition is_wait (e : event) : bool :=
  match e with WaitForService => true | _ => false end.

(** The attempts the loop makes on a list of answers: up to and including
    the first [Ok]. *)
Fixpoint attempts_made (statuses : list binder_Status) : nat :=
  match statuses with
  | [] => 0
  | s :: rest => if status_isOk s then 1 else S (attempts_made rest)
  end.

(** Whether a proxy is cached after those attempts. *)
Fixpoint final_connected (c : bool) (statuses : list binder_Status) : bool :=
  match statuses with
  | [] => c
  | EX_NONE :: _ => true
  | EX_TRANSACTION_FAILED :: rest => final_connected false rest
  | _ :: rest => final_connected true rest
  end.

(** A world in which the cached proxy is one of the connections made. *)
Definition world_ok (w : world) : Prop :=
  match gService w with
  | Some pm => (pm < connections w)%nat
  | None => True
  end.

(** The number a byte string denotes, most significant byte first. *)
Definition be_value (bs : bytes) : N := SHA.be_combine bs 0.

(* ===================================================================== *)
(** ** Concrete inputs *)
(* ===================================================================== *)

(** A package with a name of [n] letters, a version and no signature. *)
Definition plain_package (n : nat) (v : Z) : KeyAttestationPackageInfo :=
  mkPackageInfo (Some (repeat "a"%byte n)) v [].

(** Scenario 4 of the spec: a hundred packages with names of 200 bytes. *)
Definition hundred_packages : KeyAttestationApplicationId :=
  mkApplicationId (repeat (plain_package 200 1) 100).

Definition four_packages_encoded : KM_ATTESTATION_APPLICATION_ID :=
  mkKmApplicationId (repeat (mkKmPackageInfo (repeat "a"%byte 200) 1) 4) [].

(** Scenario 3 of the spec: two packages of one uid, the first signed with
    one certificate, the second with two. *)
Definition cert_A : Signature := mkSignature (list_byte_of_string "certificate A").
Definition cert_X : Signature := mkSignature (list_byte_of_string "certificate X").
Definition cert_Y : Signature := mkSignature (list_byte_of_string "certificate Y").

Definition shared_uid_packages : KeyAttestationApplicationId :=
  mkApplicationId
    [ mkPackageInfo (Some (list_byte_of_string "com.a")) 1 [cert_A];
      mkPackageInfo (Some (list_byte_of_string "com.b")) 2 [cert_X; cert_Y] ].

Definition shared_uid_encoded : KM_ATTESTATION_APPLICATION_ID :=
  mkKmApplicationId
    [ mkKmPackageInfo (list_byte_of_string "com.a") 1;
      mkKmPackageInfo (list_byte_of_string "com.b") 2 ]
    [ signature2SHA256 cert_A ].

(** Five packages with names of 200 bytes, the first one signed: four of
    them fit, and their estimate alone would leave room for the digest. *)
Definition five_packages_signed : KeyAttestationApplicationId :=
  mkApplicationId
    (mkPackageInfo (Some (repeat "a"%byte 200)) 1 [cert_A] :: repeat (plain_package 200 1) 4).

(** Seven packages with names of 129 bytes and the largest version code:
    their estimate is exactly the cap. *)
Definition seven_packages_max_version : KeyAttestationApplicationId :=
  mkApplicationId (repeat (plain_package 129 (2 ^ 63 - 1)) 7).

(** A provider that answers every call with the service specific error 7,
    and a fresh process that talks to it. *)
Definition service_specific_provider
  : nat -> N -> binder_Status * KeyAttestationApplicationId :=
  fun _ _ => (EX_SERVICE_SPECIFIC 7, mkApplicationId []).

Definition service_specific_world : world :=
  mkWorld None 0 0 service_specific_provider [].

(** A provider whose first call fails in transport and whose later calls
    answer with the packages of scenario 3. *)
Definition flaky_provider : nat -> N -> binder_Status * KeyAttestationApplicationId :=
  fun n _ =>
    match n with
    | O => (EX_TRANSACTION_FAILED, mkApplicationId [])
    | _ => (EX_NONE, shared_uid_packages)
    end.

Definition flaky_world : world := mkWorld None 0 0 flaky_provider [].

(** A provider that fails three times, once of each kind. *)
Definition failing_provider : nat -> N -> binder_Status * KeyAttestationApplicationId :=
  fun n _ =>
    match n with
    | O => (EX_TRANSACTION_FAILED, mkApplicationId [])
    | S O => (EX_SERVICE_SPECIFIC 7, mkApplicationId [])
    | _ => (EX_OTHER (-1), mkApplicationId [])
    end.

Definition failing_world : world := mkWorld None 0 0 failing_provider [].

(** A provider whose first call fails in transport and whose later calls
    answer [Ok] with no package at all. *)
Definition flaky_empty_provider : nat -> N -> binder_Status * KeyAttestationApplicationId :=
  fun n _ =>
    match n with
    | O => (EX_TRANSACTION_FAILED, mkApplicationId [])
    | _ => (EX_NONE, mkApplicationId [])
    end.

Definition flaky_empty_world : world := mkWorld None 0 0 flaky_empty_provider [].

(** A provider that answers [Ok] with no package at all. *)
Definition empty_provider : nat -> N -> binder_Status * KeyAttestationApplicationId :=
  fun _ _ => (EX_NONE, mkApplicationId []).

Definition empty_world : world := mkWorld None 0 0 empty_provider [].

(** One package with an empty name and [n] signatures. *)
Definition many_signatures (n : nat) : KeyAttestationApplicationId :=
  mkApplicationId [mkPackageInfo (Some []) 1 (repeat cert_A n)].

(** A name with a zero byte in it, and the input that carries it. *)
Definition name_with_NUL : bytes :=
  list_byte_of_string "com.a" ++ x00 :: list_byte_of_string ".evil".

Definition shared_uid_packages_with_NUL : KeyAttestationApplicationId :=
  mkApplicationId
    [ mkPackageInfo (Some name_with_NUL) 1 [cert_A];
      mkPackageInfo (Some (list_byte_of_string "com.b")) 2 [cert_X; cert_Y] ].

(** Three packages, the last two with the names given. *)
Definition three_packages (second third : bytes) : KeyAttestationApplicationId :=
  mkApplicationId
    [ mkPackageInfo (Some (list_byte_of_string "com.a")) 1 [cert_A; cert_X];
      mkPackageInfo (Some second) 2 [];
      mkPackageInfo (Some third) 3 [] ].

(* ===================================================================== *)
(** ** Facts about the helpers *)
(* ===================================================================== *)

Lemma length_be_split (k : nat) (n : N) : length (be_split k n) = k.
Proof.
  revert n; induction k as [|k IH]; intro n; simpl; [reflexivity|].
  rewrite length_app, IH; simpl; lia.
Qed.

Lemma SHA256_length (msg : bytes) : length (SHA.SHA256 msg) = SHA.SHA256_DIGEST_LENGTH.
Proof.
  unfold SHA.SHA256; cbv zeta.
  rewrite !length_app, !length_be_split; reflexivity.
Qed.

Lemma signature2SHA256_length (sig : Signature) : length (signature2SHA256 sig) = 32%nat.
Proof. apply SHA256_length. Qed.

Lemma tlv_not_nil (tag : byte) (content : bytes) : DER.tlv tag content <> [].
Proof. unfold DER.tlv; discriminate. Qed.

Lemma num_bytes_le (n : N) (b : nat) : n < 2 ^ (8 * N.of_nat b) -> (num_bytes n <= b)%nat.
Proof.
  intro H. unfold num_bytes.
  assert (Hs : N.size n <= 8 * N.of_nat b).
  { destruct (N.eq_dec n 0) as [->|Hn]; [cbn; lia|].
    rewrite N.size_log2 by exact Hn.
    apply N.log2_lt_pow2 in H; lia. }
  assert (Hd : (N.size n + 7) / 8 < N.succ (N.of_nat b)).
  { apply N.Div0.div_lt_upper_bound. lia. }
  lia.
Qed.

Lemma der_length_length (n : N) : n < 65536 -> (length (DER.der_length n) <= 3)%nat.
Proof.
  intro H. unfold DER.der_length.
  destruct (n <? 128); [cbn; lia|].
  cbn [length]. rewrite length_be_split.
  pose proof (num_bytes_le n 2 H). lia.
Qed.

Lemma tlv_length (tag : byte) (content : bytes) :
  N.of_nat (length content) < 65536 ->
  (length (DER.tlv tag content) <= 4 + length content)%nat.
Proof.
  intro H. unfold DER.tlv. cbn [length]. rewrite length_app.
  pose proof (der_length_length (N.of_nat (length content)) H). lia.
Qed.

Lemma tlv_length_short (tag : byte) (content : bytes) :
  (length content < 128)%nat ->
  length (DER.tlv tag content) = (2 + length content)%nat.
Proof.
  intro H. unfold DER.tlv, DER.der_length. cbn [length]. rewrite length_app.
  destruct (N.of_nat (length content) <? 128) eqn:Hc; [reflexivity|].
  apply N.ltb_ge in Hc. lia.
Qed.

Lemma integer_content_length (v : N) (b : nat) :
  v < 2 ^ (8 * N.of_nat b) -> (length (DER.integer_content v) <= S b)%nat.
Proof.
  intro H. unfold DER.integer_content.
  destruct (v =? 0); [cbn; lia|].
  pose proof (num_bytes_le v b H).
  destruct (N.testbit v _); cbn [length]; rewrite length_be_split; lia.
Qed.

Lemma sort_members_perm (l : list bytes) : Permutation (DER.sort_members l) l.
Proof.
  assert (Hins : forall x s, Permutation (DER.insert_sorted x s) (x :: s)).
  { intros x s. induction s as [|y s IH]; cbn [DER.insert_sorted]; [reflexivity|].
    destruct (bytes_leb x y); [reflexivity|].
    rewrite IH. apply perm_swap. }
  induction l as [|x l IH]; cbn [DER.sort_members fold_right]; [reflexivity|].
  rewrite Hins. constructor. exact IH.
Qed.

Lemma concat_length_perm (l l' : list bytes) :
  Permutation l l' -> length (concat l) = length (concat l').
Proof.
  induction 1 as [| x l l' _ IH | x y l | l l' l'' _ IH1 _ IH2];
    cbn [concat]; rewrite ?length_app; lia.
Qed.

Lemma set_of_length (members : list bytes) :
  N.of_nat (length (concat members)) < 65536 ->
  (length (DER.set_of members) <= 4 + length (concat members))%nat.
Proof.
  intro H. unfold DER.set_of.
  pose proof (concat_length_perm _ _ (sort_members_perm members)) as Hp.
  rewrite <- Hp in *. apply tlv_length. exact H.
Qed.

Lemma Val_inj {A} (a b : A) : Val a = Val b -> a = b.
Proof. intro H; congruence. Qed.

Lemma size_t_add_small (a b : N) : a + b < 2 ^ 64 -> size_t_add a b = a + b.
Proof. intro H; unfold size_t_add, SIZE_BITS; apply N.mod_small; exact H. Qed.

Lemma pow63 : 2 ^ 63 = 9223372036854775808.
Proof. reflexivity. Qed.

Lemma pow64 : 2 ^ 64 = 18446744073709551616.
Proof. reflexivity. Qed.

Lemma packages_cost_app (l1 l2 : list KeyAttestationPackageInfo) :
  packages_cost (l1 ++ l2) = packages_cost l1 + packages_cost l2.
Proof.
  induction l1 as [|p l1 IH]; cbn [app packages_cost]; [reflexivity | rewrite IH; lia].
Qed.

Lemma packages_cost_firstn_mono (pkgs : list KeyAttestationPackageInfo) (j k : nat) :
  (j <= k)%nat -> packages_cost (firstn j pkgs) <= packages_cost (firstn k pkgs).
Proof.
  revert j k; induction pkgs as [|p pkgs IH]; intros j k Hjk.
  - rewrite !firstn_nil; lia.
  - destruct j as [|j]; [cbn [firstn packages_cost]; lia|].
    destruct k as [|k]; [lia|].
    cbn [firstn packages_cost]. specialize (IH j k ltac:(lia)). lia.
Qed.

Lemma packages_cost_firstn_succ (pkgs : list KeyAttestationPackageInfo) (k : nat) :
  (k < length pkgs)%nat ->
  AAID_PKG_INFO_OVERHEAD + packages_cost (firstn k pkgs) <= packages_cost (firstn (S k) pkgs).
Proof.
  revert k; induction pkgs as [|p pkgs IH]; intros k Hk; simpl in Hk; [lia|].
  destruct k as [|k].
  - cbn [firstn packages_cost]. lia.
  - specialize (IH k ltac:(lia)). cbn [firstn packages_cost] in *. lia.
Qed.

(** The constants as equations, for [lia]. *)
Ltac size_facts :=
  pose proof (eq_refl : AAID_PKG_INFO_OVERHEAD = 15);
  pose proof (eq_refl : AAID_SIGNATURE_SIZE = 34);
  pose proof (eq_refl : AAID_GENERAL_OVERHEAD = 16);
  pose proof (eq_refl : KEY_ATTESTATION_APPLICATION_ID_MAX_SIZE = 1024);
  rewrite ?pow63, ?pow64 in *.

(** What the package loop computes: the stack grows by the built packages of
    a prefix, and the estimate is the unbounded sum up to and including the
    package that left the loop. *)
Lemma package_loop_spec (pkgs : list KeyAttestationPackageInfo) :
  forall est0 stack est st,
    est0 <= KEY_ATTESTATION_APPLICATION_ID_MAX_SIZE ->
    Forall (fun p => name_size p < 2 ^ 63) pkgs ->
    package_loop pkgs est0 stack = Val (est, st) ->
    exists k,
      (k <= length pkgs)%nat /\
      st = stack ++ map km_info_of (firstn k pkgs) /\
      est0 + packages_cost (firstn k pkgs) <= KEY_ATTESTATION_APPLICATION_ID_MAX_SIZE /\
      est = est0 + packages_cost (firstn (S k) pkgs) /\
      ((k < length pkgs)%nat -> KEY_ATTESTATION_APPLICATION_ID_MAX_SIZE < est) /\
      est < 2 ^ 63 + 2048.
Proof.
  induction pkgs as [|p rest IH]; intros est0 stack est st Hest Hsmall Hrun.
  - cbn [package_loop] in Hrun.
    apply Val_inj, pair_equal_spec in Hrun. destruct Hrun as [<- <-].
    exists 0%nat. cbn [firstn map length packages_cost]. rewrite app_nil_r.
    size_facts. repeat split; try reflexivity; lia.
  - inversion Hsmall as [|? ? Hp Hrest]; subst.
    cbn [package_loop] in Hrun. unfold build_attestation_package_info in Hrun.
    assert (Hns : name_size p =
                  match packageName p with Some n => string_size (c_str n) | None => 0 end)
      by reflexivity.
    destruct (packageName p) as [name|] eqn:Hname; [|discriminate].
    cbv zeta in Hrun.
    assert (Hinfo : km_info_of p = mkKmPackageInfo (c_str name) (to_uint64 (versionCode p)))
      by (unfold km_info_of; rewrite Hname; reflexivity).
    rewrite <- Hns, <- Hinfo in Hrun. clear Hns Hinfo.
    assert (Hadd : size_t_add est0 (size_t_add AAID_PKG_INFO_OVERHEAD (name_size p))
                   = est0 + (AAID_PKG_INFO_OVERHEAD + name_size p)).
    { size_facts.
      rewrite (size_t_add_small AAID_PKG_INFO_OVERHEAD) by (rewrite pow64; lia).
      apply size_t_add_small. rewrite pow64; lia. }
    rewrite Hadd in Hrun. clear Hadd.
    destruct (KEY_ATTESTATION_APPLICATION_ID_MAX_SIZE <?
              est0 + (AAID_PKG_INFO_OVERHEAD + name_size p)) eqn:Hcmp.
    + apply Val_inj, pair_equal_spec in Hrun. destruct Hrun as [<- <-].
      apply N.ltb_lt in Hcmp.
      exists 0%nat. rewrite app_nil_r.
      cbn [firstn map length packages_cost].
      size_facts. repeat split; try reflexivity; lia.
    + apply N.ltb_ge in Hcmp.
      destruct (IH _ _ _ _ Hcmp Hrest Hrun) as (k & Hk & Hst & Hle & Hest' & Hgt & Hbound).
      exists (S k). cbn [firstn map length packages_cost].
      repeat split.
      * lia.
      * rewrite Hst, <- app_assoc. reflexivity.
      * lia.
      * rewrite Hest'. cbn [firstn packages_cost]. lia.
      * intro H. apply Hgt. lia.
      * exact Hbound.
Qed.

Lemma package_loop_named (pkgs : list KeyAttestationPackageInfo) :
  forall est0 stack,
    Forall (fun p => packageName p <> None) pkgs ->
    exists r, package_loop pkgs est0 stack = Val r.
Proof.
  induction pkgs as [|p rest IH]; intros est0 stack Hnamed.
  - eexists; reflexivity.
  - inversion Hnamed as [|? ? Hp Hrest]; subst.
    cbn [package_loop]. unfold build_attestation_package_info.
    destruct (packageName p) as [name|]; [|congruence].
    cbv zeta.
    match goal with |- context [if ?c then _ else _] => destruct c end.
    + eexists; reflexivity.
    + apply IH; exact Hrest.
Qed.

(** The package loop never looks at a signature. *)
Lemma package_loop_ignores_signatures (ps qs : list KeyAttestationPackageInfo) :
  Forall2 (fun a b => packageName a = packageName b /\ versionCode a = versionCode b) ps qs ->
  forall est0 stack, package_loop ps est0 stack = package_loop qs est0 stack.
Proof.
  induction 1 as [|p q ps qs [Hn Hv] _ IH]; intros est0 stack; [reflexivity|].
  cbn [package_loop]. unfold build_attestation_package_info.
  rewrite <- Hn, <- Hv.
  destruct (packageName p) as [name|]; [|reflexivity].
  cbv zeta.
  match goal with |- context [if ?c then _ else _] => destruct c end;
    [reflexivity | apply IH].
Qed.

(** What the digest loop computes: the stack grows by the longest prefix of
    the digests that keeps the estimate within the cap. *)
Lemma digest_loop_spec (digests : list bytes) :
  forall est0 stack,
    est0 < 2 ^ 63 + 2048 ->
    exists k,
      (k <= length digests)%nat /\
      snd (digest_loop digests est0 stack) = stack ++ firstn k digests /\
      forall j, (1 <= j <= length digests)%nat ->
        ((j <= k)%nat <->
         est0 + AAID_SIGNATURE_SIZE * N.of_nat j <= KEY_ATTESTATION_APPLICATION_ID_MAX_SIZE).
Proof.
  induction digests as [|si rest IH]; intros est0 stack Hest.
  - exists 0%nat. cbn [digest_loop snd firstn length]. rewrite app_nil_r.
    repeat split; try reflexivity; lia.
  - cbn [digest_loop]. cbv zeta.
    rewrite size_t_add_small by (size_facts; lia).
    destruct (KEY_ATTESTATION_APPLICATION_ID_MAX_SIZE <? est0 + AAID_SIGNATURE_SIZE) eqn:Hcmp.
    + apply N.ltb_lt in Hcmp.
      exists 0%nat. cbn [snd firstn length]. rewrite app_nil_r.
      split; [lia|]. split; [reflexivity|].
      intros j Hj. size_facts. split; intro Hfits; lia.
    + apply N.ltb_ge in Hcmp.
      destruct (IH (est0 + AAID_SIGNATURE_SIZE) (stack ++ [si])) as (k & Hk & Hst & Hfit).
      { size_facts. lia. }
      exists (S k). cbn [firstn length].
      split; [lia|]. split; [rewrite Hst, <- app_assoc; reflexivity|].
      intros j Hj. cbn [length] in Hj.
      destruct (Nat.eq_dec j 1) as [->|Hne].
      * size_facts. split; intro Hfits; lia.
      * specialize (Hfit (j - 1)%nat ltac:(lia)).
        size_facts. split; intro Hfits.
        -- assert (Hk' : (j - 1 <= k)%nat) by lia. apply Hfit in Hk'. lia.
        -- assert (Hk' : (j - 1 <= k)%nat) by (apply Hfit; lia). lia.
Qed.

(** The two loops behind a successful [build_KM_ATTESTATION_APPLICATION_ID]. *)
Lemma build_KM_inv (id : KeyAttestationApplicationId) (a : KM_ATTESTATION_APPLICATION_ID) :
  build_KM_ATTESTATION_APPLICATION_ID id = Val a ->
  packageInfos id <> [] /\
  package_loop (packageInfos id) AAID_GENERAL_OVERHEAD []
    = Val (estimate_after_packages id, package_infos a) /\
  signature_digests a
    = snd (digest_loop (map signature2SHA256 (first_signatures id))
                       (estimate_after_packages id) []).
Proof.
  unfold build_KM_ATTESTATION_APPLICATION_ID, estimate_after_packages, first_signatures.
  destruct (packageInfos id) as [|pinfo rest] eqn:Hpk; [discriminate|].
  destruct (package_loop (pinfo :: rest) AAID_GENERAL_OVERHEAD []) as [rc|[est st]];
    [discriminate|].
  cbv zeta.
  destruct (digest_loop (map signature2SHA256 (signatures pinfo)) est []) as [est' ds] eqn:Hd.
  intro H. apply Val_inj in H. subst a. cbn [package_infos signature_digests snd].
  repeat split; congruence.
Qed.

Lemma build_valid_succeeds (id : KeyAttestationApplicationId) :
  valid_input id -> exists a, build_KM_ATTESTATION_APPLICATION_ID id = Val a.
Proof.
  intros [Hne Hnamed]. unfold build_KM_ATTESTATION_APPLICATION_ID.
  destruct (packageInfos id) as [|pinfo rest] eqn:Hpk; [congruence|].
  destruct (package_loop_named (pinfo :: rest) AAID_GENERAL_OVERHEAD [] Hnamed)
    as [[est st] Hrun].
  rewrite Hrun. cbv zeta.
  destruct (digest_loop (map signature2SHA256 (signatures pinfo)) est []) as [est' ds].
  eexists; reflexivity.
Qed.

Lemma encode_valid_succeeds (id : KeyAttestationApplicationId) :
  valid_input id -> exists out, build_attestation_application_id id = Val out.
Proof.
  intro Hv. destruct (build_valid_succeeds id Hv) as [a Ha].
  unfold build_attestation_application_id. rewrite Ha. eexists; reflexivity.
Qed.

(** The included packages are a prefix, and no longer prefix stays within
    the cap. *)
Lemma included_packages (id : KeyAttestationApplicationId) (a : KM_ATTESTATION_APPLICATION_ID) :
  names_in_memory id ->
  build_KM_ATTESTATION_APPLICATION_ID id = Val a ->
  exists k,
    (k <= length (packageInfos id))%nat /\
    package_infos a = map km_info_of (firstn k (packageInfos id)) /\
    estimate (firstn k (packageInfos id)) <= KEY_ATTESTATION_APPLICATION_ID_MAX_SIZE /\
    estimate_after_packages id = estimate (firstn (S k) (packageInfos id)) /\
    ((k < length (packageInfos id))%nat ->
     KEY_ATTESTATION_APPLICATION_ID_MAX_SIZE < estimate (firstn (S k) (packageInfos id))) /\
    estimate_after_packages id < 2 ^ 63 + 2048.
Proof.
  intros Hmem Hbuild.
  destruct (build_KM_inv id a Hbuild) as (_ & Hrun & _).
  destruct (package_loop_spec (packageInfos id) AAID_GENERAL_OVERHEAD [] _ _
              ltac:(size_facts; lia) Hmem Hrun)
    as (k & Hk & Hst & Hle & Hest & Hgt & Hbound).
  exists k. unfold estimate. rewrite <- Hest.
  repeat split; assumption.
Qed.

(* ===================================================================== *)
(** ** The encoder: theorems *)
(* ===================================================================== *)

(** C2.  The package loop walks the input in order and stops at the first
    package whose tentative addition of [AAID_PKG_INFO_OVERHEAD] plus the name
    length takes the estimate, started at [AAID_GENERAL_OVERHEAD], over
    [KEY_ATTESTATION_APPLICATION_ID_MAX_SIZE]; that package is left out and
    every earlier one is appended fully built.  Hence, whenever the call
    succeeds, the encoded packages are exactly the longest prefix of the input
    whose cumulative estimate is within the cap: a prefix of length [j] is
    within the cap if and only if [j] is at most the number of packages
    encoded. *)
Theorem C2_packages_are_longest_prefix_within_cap :
  forall (id : KeyAttestationApplicationId) (a : KM_ATTESTATION_APPLICATION_ID),
    names_in_memory id ->
    build_KM_ATTESTATION_APPLICATION_ID id = Val a ->
    build_attestation_application_id id = Val (i2d_KM_ATTESTATION_APPLICATION_ID a) /\
    exists k,
      (k <= length (packageInfos id))%nat /\
      package_infos a = map km_info_of (firstn k (packageInfos id)) /\
      forall j, (j <= length (packageInfos id))%nat ->
        (estimate (firstn j (packageInfos id)) <= KEY_ATTESTATION_APPLICATION_ID_MAX_SIZE
         <-> (j <= k)%nat).
Proof.
  intros id a Hmem Hbuild.
  split; [unfold build_attestation_application_id; rewrite Hbuild; reflexivity|].
  destruct (included_packages id a Hmem Hbuild) as (k & Hk & Hst & Hle & _ & Hgt & _).
  exists k. split; [exact Hk|]. split; [exact Hst|].
  intros j Hj. unfold estimate in *. split; intro H.
  - destruct (Nat.le_gt_cases j k) as [|Hlt]; [assumption|exfalso].
    specialize (Hgt ltac:(lia)).
    pose proof (packages_cost_firstn_mono (packageInfos id) (S k) j ltac:(lia)).
    lia.
  - pose proof (packages_cost_firstn_mono (packageInfos id) j k H). lia.
Qed.


(** C9.  If the package loop left a package out, the digest stack is empty:
    the estimate it leaves behind already exceeds the cap, so the first
    digest fails the budget check. *)
Theorem C9_truncated_packages_leave_no_digests :
  forall (id : KeyAttestationApplicationId) (a : KM_ATTESTATION_APPLICATION_ID),
    names_in_memory id ->
    build_KM_ATTESTATION_APPLICATION_ID id = Val a ->
    (length (package_infos a) < length (packageInfos id))%nat ->
    KEY_ATTESTATION_APPLICATION_ID_MAX_SIZE < estimate_after_packages id /\
    signature_digests a = [] /\
    build_attestation_application_id id
      = Val (DER.sequence
               (DER.set_of (map i2d_KM_ATTESTATION_PACKAGE_INFO (package_infos a))
                ++ DER.set_of [])).
Proof.
  intros id a Hmem Hbuild Htrunc.
  destruct (included_packages id a Hmem Hbuild) as (k & Hk & Hst & _ & Hest & Hgt & Hbound).
  assert (Hlen : length (package_infos a) = k).
  { rewrite Hst, length_map, length_firstn. lia. }
  assert (Hover : KEY_ATTESTATION_APPLICATION_ID_MAX_SIZE < estimate_after_packages id).
  { rewrite Hest. apply Hgt. lia. }
  assert (Hnil : signature_digests a = []).
  { destruct (build_KM_inv id a Hbuild) as (_ & _ & Hdig).
    destruct (digest_loop_spec (map signature2SHA256 (first_signatures id))
                (estimate_after_packages id) [] Hbound) as (n & Hn & Hsnd & Hfit).
    rewrite Hdig, Hsnd. cbn [app].
    destruct n as [|n]; [reflexivity|exfalso].
    assert (H1 : (1 <= S n)%nat) by lia.
    apply (Hfit 1%nat ltac:(lia)) in H1.
    size_facts. lia. }
  split; [exact Hover|]. split; [exact Hnil|].
  unfold build_attestation_application_id. rewrite Hbuild.
  unfold i2d_KM_ATTESTATION_APPLICATION_ID. rewrite Hnil. reflexivity.
Qed.

(** Scenario 4 of the spec, run: the call succeeds and encodes four of the
    hundred packages. *)
Example hundred_packages_run :
  build_KM_ATTESTATION_APPLICATION_ID hundred_packages = Val four_packages_encoded.
Proof. vm_compute. reflexivity. Qed.

Lemma repeat_names_in_memory (n : nat) (v : Z) (m : nat) :
  N.of_nat n < 2 ^ 63 -> names_in_memory (mkApplicationId (repeat (plain_package n v) m)).
Proof.
  intro Hn. unfold names_in_memory. cbn [packageInfos].
  apply Forall_forall. intros p Hp. apply repeat_spec in Hp. subst p.
  unfold name_size, plain_package. cbn [packageName].
  assert (Hc : c_str (repeat "a"%byte n) = repeat "a"%byte n).
  { clear Hn. induction n as [|n IH]; [reflexivity|]. cbn. rewrite IH. reflexivity. }
  rewrite Hc. unfold string_size. rewrite repeat_length. exact Hn.
Qed.

(** C2, at scenario 4 of the spec. *)
Lemma C2_witness_hundred_packages :
  build_attestation_application_id hundred_packages
    = Val (i2d_KM_ATTESTATION_APPLICATION_ID four_packages_encoded) /\
  exists k,
    (k <= length (packageInfos hundred_packages))%nat /\
    package_infos four_packages_encoded
      = map km_info_of (firstn k (packageInfos hundred_packages)) /\
    forall j, (j <= length (packageInfos hundred_packages))%nat ->
      (estimate (firstn j (packageInfos hundred_packages))
         <= KEY_ATTESTATION_APPLICATION_ID_MAX_SIZE
       <-> (j <= k)%nat).
Proof.
  apply (C2_packages_are_longest_prefix_within_cap hundred_packages four_packages_encoded).
  - apply repeat_names_in_memory. vm_compute. reflexivity.
  - vm_compute. reflexivity.
Defined.

(** Scenario 4, the numbers: four packages, since 16 + 4 * 215 = 876 is
    within the cap and 16 + 5 * 215 = 1091 is not. *)
Example hundred_packages_counts :
  length (package_infos four_packages_encoded) = 4%nat /\
  estimate (firstn 4 (packageInfos hundred_packages)) = 876 /\
  estimate (firstn 5 (packageInfos hundred_packages)) = 1091 /\
  isOk (build_attestation_application_id hundred_packages) = true.
Proof. vm_compute. repeat split; reflexivity. Qed.

Lemma explicit_names_in_memory (id : KeyAttestationApplicationId) :
  forallb (fun p => name_size p <? 2 ^ 63) (packageInfos id) = true -> names_in_memory id.
Proof.
  intro H. unfold names_in_memory. apply Forall_forall. intros p Hp.
  rewrite forallb_forall in H. apply N.ltb_lt. apply H. exact Hp.
Qed.



(** C9, at five packages of which four fit: the first package's certificate
    is dropped although 876 + 34 would be within the cap. *)
Lemma C9_witness_five_packages :
  KEY_ATTESTATION_APPLICATION_ID_MAX_SIZE < estimate_after_packages five_packages_signed /\
  signature_digests four_packages_encoded = [] /\
  build_attestation_application_id five_packages_signed
    = Val (DER.sequence
             (DER.set_of (map i2d_KM_ATTESTATION_PACKAGE_INFO
                              (package_infos four_packages_encoded))
              ++ DER.set_of [])).
Proof.
  apply (C9_truncated_packages_leave_no_digests five_packages_signed four_packages_encoded).
  - apply explicit_names_in_memory. vm_compute. reflexivity.
  - vm_compute. reflexivity.
  - vm_compute. lia.
Defined.

(** Scenario 3 of the spec, the bytes: both packages, in the order of their
    encodings, and the digest of the first package's certificate.  The bytes
    are those the crypto library's encoder emits for this structure. *)
Example shared_uid_bytes :
  build_attestation_application_id shared_uid_packages
  = Val [x30; x3e; x31; x18; x30; x0a; x04; x05; x63; x6f; x6d; x2e; x61; x02; x01; x01;
         x30; x0a; x04; x05; x63; x6f; x6d; x2e; x62; x02; x01; x02; x31; x22; x04; x20;
         xce; x5c; xab; x5a; x5c; xd3; x59; x10; x01; xb5; xf4; x84; xcb; x55; x31; xd8;
         x14; x45; x56; x5c; xa3; xed; x21; xca; x16; x01; x0a; x76; xfa; x8c; xc5; xc2].
Proof. vm_compute. reflexivity. Qed.

(** C4.  An input without packages is rejected with [BAD_VALUE], and no
    successful call returns the empty byte string. *)
Theorem C4_empty_input_rejected_output_never_empty :
  (forall id, packageInfos id = [] -> build_attestation_application_id id = Err BAD_VALUE) /\
  (forall id out, build_attestation_application_id id = Val out -> out <> []).
Proof.
  split.
  - intros id Hempty.
    unfold build_attestation_application_id, build_KM_ATTESTATION_APPLICATION_ID.
    rewrite Hempty. reflexivity.
  - intros id out Hrun. unfold build_attestation_application_id in Hrun.
    destruct (build_KM_ATTESTATION_APPLICATION_ID id) as [rc|a]; [discriminate|].
    apply Val_inj in Hrun. subst out.
    unfold i2d_KM_ATTESTATION_APPLICATION_ID, DER.sequence. apply tlv_not_nil.
Qed.

(** C4, at the input without packages and at scenario 3. *)
Lemma C4_witness_empty_and_shared_uid :
  build_attestation_application_id (mkApplicationId []) = Err BAD_VALUE /\
  i2d_KM_ATTESTATION_APPLICATION_ID shared_uid_encoded <> [].
Proof.
  split.
  - apply (proj1 C4_empty_input_rejected_output_never_empty). reflexivity.
  - apply (proj2 C4_empty_input_rejected_output_never_empty shared_uid_packages).
    vm_compute. reflexivity.
Defined.


(** C1.  The estimate leaves out the SEQUENCE header of each package, so the
    cap on the estimate does not cap the output: seven packages with names
    of 129 bytes and version code 2^63 - 1 are a valid input whose estimate is
    exactly 1024, all seven are encoded, and the output has 1025 bytes. *)
Theorem C1_output_can_exceed_cap :
  valid_input seven_packages_max_version /\
  estimate (packageInfos seven_packages_max_version) = KEY_ATTESTATION_APPLICATION_ID_MAX_SIZE /\
  exists a out,
    build_KM_ATTESTATION_APPLICATION_ID seven_packages_max_version = Val a /\
    length (package_infos a) = 7%nat /\
    build_attestation_application_id seven_packages_max_version = Val out /\
    length out = 1025%nat /\
    KEY_ATTESTATION_APPLICATION_ID_MAX_SIZE < N.of_nat (length out).
Proof.
  split.
  { split; [discriminate|].
    apply Forall_forall. intros p Hp. apply repeat_spec in Hp. subst p. discriminate. }
  split; [vm_compute; reflexivity|].
  destruct (build_KM_ATTESTATION_APPLICATION_ID seven_packages_max_version) as [rc|a] eqn:Ha;
    [vm_compute in Ha; discriminate|].
  exists a, (i2d_KM_ATTESTATION_APPLICATION_ID a).
  split; [reflexivity|].
  unfold build_attestation_application_id. rewrite Ha.
  vm_compute in Ha. apply Val_inj in Ha. subst a.
  split; [reflexivity|]. split; [reflexivity|].
  split; vm_compute; reflexivity.
Qed.

Lemma i2d_package_length (p : KM_ATTESTATION_PACKAGE_INFO) (b : nat) :
  (b <= 8)%nat ->
  string_size (package_name p) <= 1024 ->
  version p < 2 ^ (8 * N.of_nat b) ->
  (length (i2d_KM_ATTESTATION_PACKAGE_INFO p) <= length (package_name p) + 11 + b)%nat.
Proof.
  intros Hb Hn Hv. unfold string_size in Hn.
  unfold i2d_KM_ATTESTATION_PACKAGE_INFO, DER.sequence, DER.octet_string, DER.integer.
  pose proof (integer_content_length (version p) b Hv) as Hi.
  pose proof (tlv_length_short x02 (DER.integer_content (version p)) ltac:(lia)) as Hint.
  pose proof (tlv_length x04 (package_name p) ltac:(lia)) as Hoct.
  pose proof (tlv_length x30
                (DER.tlv x04 (package_name p) ++ DER.tlv x02 (DER.integer_content (version p))))
    as Hseq.
  rewrite length_app in Hseq.
  specialize (Hseq ltac:(lia)). lia.
Qed.

Lemma packages_length_bound (b : nat) (ps : list KM_ATTESTATION_PACKAGE_INFO) :
  (b <= 8)%nat ->
  Forall (fun p => version p < 2 ^ (8 * N.of_nat b)) ps ->
  AAID_GENERAL_OVERHEAD + km_packages_cost ps <= KEY_ATTESTATION_APPLICATION_ID_MAX_SIZE ->
  N.of_nat (length (concat (map i2d_KM_ATTESTATION_PACKAGE_INFO ps)))
    + 4 * N.of_nat (length ps)
  <= km_packages_cost ps + N.of_nat b * N.of_nat (length ps).
Proof.
  intros Hb Hv. induction Hv as [|p rest Hp _ IH]; intro Hcap.
  - cbn. lia.
  - cbn [map concat km_packages_cost length] in *. rewrite length_app.
    size_facts.
    pose proof (i2d_package_length p b Hb ltac:(lia) Hp) as Hlen.
    specialize (IH ltac:(lia)). unfold string_size in *. lia.
Qed.

Lemma km_packages_cost_lower (ps : list KM_ATTESTATION_PACKAGE_INFO) :
  AAID_PKG_INFO_OVERHEAD * N.of_nat (length ps) <= km_packages_cost ps.
Proof.
  induction ps as [|p rest IH]; cbn [km_packages_cost length]; lia.
Qed.

Lemma digests_length (ds : list bytes) :
  Forall (fun d => length d = 32%nat) ds ->
  length (concat (map DER.octet_string ds)) = (34 * length ds)%nat.
Proof.
  induction 1 as [|d rest Hd _ IH]; [reflexivity|].
  cbn [map concat length]. rewrite length_app, IH.
  unfold DER.octet_string. rewrite tlv_length_short by lia. lia.
Qed.

(** The bytes of a structure whose estimate is within the cap: the estimate
    counts 4 bytes too many for the whole, and [8 - b] bytes too few per
    package whose version needs [b] bytes. *)
Lemma i2d_length_bound (b : nat) (a : KM_ATTESTATION_APPLICATION_ID) :
  (b <= 8)%nat ->
  Forall (fun p => version p < 2 ^ (8 * N.of_nat b)) (package_infos a) ->
  Forall (fun d => length d = 32%nat) (signature_digests a) ->
  included_estimate a <= KEY_ATTESTATION_APPLICATION_ID_MAX_SIZE ->
  N.of_nat (length (i2d_KM_ATTESTATION_APPLICATION_ID a))
    + 4 + 4 * N.of_nat (length (package_infos a))
  <= included_estimate a + N.of_nat b * N.of_nat (length (package_infos a)).
Proof.
  intros Hb Hv Hd Hcap. unfold included_estimate in *.
  unfold i2d_KM_ATTESTATION_APPLICATION_ID, DER.sequence.
  pose proof (km_packages_cost_lower (package_infos a)) as Hlow.
  pose proof (digests_length _ Hd) as Hdig.
  size_facts.
  pose proof (packages_length_bound b (package_infos a) Hb Hv ltac:(lia)) as Hpk.
  pose proof (set_of_length (map i2d_KM_ATTESTATION_PACKAGE_INFO (package_infos a))
                ltac:(nia)) as Hs1.
  pose proof (set_of_length (map DER.octet_string (signature_digests a)) ltac:(lia)) as Hs2.
  pose proof (tlv_length x30
                (DER.set_of (map i2d_KM_ATTESTATION_PACKAGE_INFO (package_infos a))
                 ++ DER.set_of (map DER.octet_string (signature_digests a)))) as Hseq.
  rewrite length_app in Hseq. specialize (Hseq ltac:(nia)).
  nia.
Qed.

Lemma km_packages_cost_map (pkgs : list KeyAttestationPackageInfo) :
  km_packages_cost (map km_info_of pkgs) = packages_cost pkgs.
Proof.
  induction pkgs as [|p rest IH]; [reflexivity|].
  cbn [map km_packages_cost packages_cost]. rewrite IH.
  unfold km_info_of, name_size. cbn [package_name].
  destruct (packageName p); reflexivity.
Qed.

Lemma to_uint64_bound (v : Z) : to_uint64 v < 2 ^ 64.
Proof.
  unfold to_uint64.
  pose proof (Z.mod_pos_bound v (2 ^ 64) ltac:(lia)) as H.
  rewrite pow64. lia.
Qed.

(** What a successful call encodes has an estimate within the cap, digests
    of 32 bytes and versions of at most 8 bytes. *)
Lemma included_estimate_within_cap
    (id : KeyAttestationApplicationId) (a : KM_ATTESTATION_APPLICATION_ID) :
  names_in_memory id ->
  build_KM_ATTESTATION_APPLICATION_ID id = Val a ->
  included_estimate a <= KEY_ATTESTATION_APPLICATION_ID_MAX_SIZE /\
  Forall (fun d => length d = 32%nat) (signature_digests a) /\
  Forall (fun p => version p < 2 ^ 64) (package_infos a).
Proof.
  intros Hmem Hbuild.
  destruct (included_packages id a Hmem Hbuild) as (k & Hk & Hst & Hle & Hest & _ & Hbound).
  destruct (build_KM_inv id a Hbuild) as (_ & _ & Hdig).
  destruct (digest_loop_spec (map signature2SHA256 (first_signatures id))
              (estimate_after_packages id) [] Hbound) as (n & Hn & Hsnd & Hfit).
  rewrite Hsnd in Hdig. cbn [app] in Hdig. rewrite length_map in Hn, Hfit.
  split; [|split].
  - unfold included_estimate. rewrite Hst, km_packages_cost_map, Hdig.
    rewrite length_firstn, length_map, Nat.min_l by lia.
    unfold estimate in *.
    destruct n as [|n]; [size_facts; lia|].
    pose proof (proj1 (Hfit (S n) ltac:(lia)) ltac:(lia)) as Hfits.
    pose proof (packages_cost_firstn_mono (packageInfos id) k (S k) ltac:(lia)).
    rewrite Hest in Hfits. lia.
  - rewrite Hdig, firstn_map. apply Forall_map, Forall_forall. intros sig _.
    apply signature2SHA256_length.
  - rewrite Hst. apply Forall_forall. intros p Hp.
    apply in_map_iff in Hp. destruct Hp as (q & <- & _).
    unfold km_info_of. cbn [version]. apply to_uint64_bound.
Qed.

(** X1.  What does hold of the output length.  The estimate's general overhead
    counts 4 bytes that are not part of the output, and its package overhead
    leaves out the package's SEQUENCE header and allows 9 bytes for the
    version: the output stays 4 bytes below the estimate of what was encoded
    plus 4 bytes per encoded package, and it stays below the cap when every
    encoded version is below 2^32. *)
Theorem encoded_length_bound
    (id : KeyAttestationApplicationId) (a : KM_ATTESTATION_APPLICATION_ID) :
  names_in_memory id ->
  build_KM_ATTESTATION_APPLICATION_ID id = Val a ->
  included_estimate a <= KEY_ATTESTATION_APPLICATION_ID_MAX_SIZE /\
  N.of_nat (length (i2d_KM_ATTESTATION_APPLICATION_ID a)) + 4
    <= included_estimate a + 4 * N.of_nat (length (package_infos a)) /\
  (Forall (fun p => version p < 2 ^ 32) (package_infos a) ->
   N.of_nat (length (i2d_KM_ATTESTATION_APPLICATION_ID a)) + 4
     <= KEY_ATTESTATION_APPLICATION_ID_MAX_SIZE).
Proof.
  intros Hmem Hbuild.
  destruct (included_estimate_within_cap id a Hmem Hbuild) as (Hcap & Hd & Hv).
  split; [exact Hcap|]. split.
  - pose proof (i2d_length_bound 8 a ltac:(lia) Hv Hd Hcap). lia.
  - intro Hv32.
    pose proof (i2d_length_bound 4 a ltac:(lia) Hv32 Hd Hcap). lia.
Qed.

(* ===================================================================== *)
(** ** The encoder: further properties *)
(* ===================================================================== *)

(** X1, at scenario 3 of the spec: 64 bytes for an estimate of 92. *)
Lemma X1_witness_shared_uid :
  included_estimate shared_uid_encoded <= KEY_ATTESTATION_APPLICATION_ID_MAX_SIZE /\
  N.of_nat (length (i2d_KM_ATTESTATION_APPLICATION_ID shared_uid_encoded)) + 4
    <= included_estimate shared_uid_encoded
       + 4 * N.of_nat (length (package_infos shared_uid_encoded)) /\
  N.of_nat (length (i2d_KM_ATTESTATION_APPLICATION_ID shared_uid_encoded)) + 4
    <= KEY_ATTESTATION_APPLICATION_ID_MAX_SIZE.
Proof.
  destruct (encoded_length_bound shared_uid_packages shared_uid_encoded)
    as (Hcap & Hgen & Hsmall).
  - apply explicit_names_in_memory. vm_compute. reflexivity.
  - vm_compute. reflexivity.
  - split; [exact Hcap|]. split; [exact Hgen|]. apply Hsmall.
    repeat constructor.
Defined.

(** A package whose name has at most 114 bytes takes no more than the
    estimate allows for it, whatever its version: its content stays below
    128 bytes, so both headers are two bytes long. *)
Lemma i2d_package_length_short_name (p : KM_ATTESTATION_PACKAGE_INFO) :
  string_size (package_name p) <= 114 ->
  version p < 2 ^ 64 ->
  (length (i2d_KM_ATTESTATION_PACKAGE_INFO p) <= length (package_name p) + 15)%nat.
Proof.
  intros Hn Hv. unfold string_size in Hn.
  unfold i2d_KM_ATTESTATION_PACKAGE_INFO, DER.sequence, DER.octet_string, DER.integer.
  pose proof (integer_content_length (version p) 8 Hv) as Hi.
  pose proof (tlv_length_short x02 (DER.integer_content (version p)) ltac:(lia)) as Hint.
  pose proof (tlv_length_short x04 (package_name p) ltac:(lia)) as Hoct.
  pose proof (tlv_length_short x30
                (DER.tlv x04 (package_name p) ++ DER.tlv x02 (DER.integer_content (version p))))
    as Hseq.
  rewrite length_app in Hseq.
  specialize (Hseq ltac:(lia)). lia.
Qed.

Lemma packages_length_bound_short_names (ps : list KM_ATTESTATION_PACKAGE_INFO) :
  Forall (fun p => string_size (package_name p) <= 114 /\ version p < 2 ^ 64) ps ->
  N.of_nat (length (concat (map i2d_KM_ATTESTATION_PACKAGE_INFO ps))) <= km_packages_cost ps.
Proof.
  induction 1 as [|p rest [Hn Hv] _ IH]; [cbn; lia|].
  cbn [map concat km_packages_cost]. rewrite length_app.
  pose proof (i2d_package_length_short_name p Hn Hv) as Hlen.
  size_facts. unfold string_size in *. lia.
Qed.

(** X2.  When every encoded package name has at most 114 bytes, the output
    of a successful call stays 4 bytes below the estimate of what was encoded,
    hence within the cap, for all version codes. *)
Theorem X2_short_names_keep_output_within_cap :
  forall (id : KeyAttestationApplicationId) (a : KM_ATTESTATION_APPLICATION_ID),
    names_in_memory id ->
    build_KM_ATTESTATION_APPLICATION_ID id = Val a ->
    Forall (fun p => string_size (package_name p) <= 114) (package_infos a) ->
    N.of_nat (length (i2d_KM_ATTESTATION_APPLICATION_ID a)) + 4 <= included_estimate a /\
    N.of_nat (length (i2d_KM_ATTESTATION_APPLICATION_ID a)) + 4
      <= KEY_ATTESTATION_APPLICATION_ID_MAX_SIZE.
Proof.
  intros id a Hmem Hbuild Hshort.
  destruct (included_estimate_within_cap id a Hmem Hbuild) as (Hcap & Hd & Hv).
  assert (Hboth : Forall (fun p => string_size (package_name p) <= 114 /\ version p < 2 ^ 64)
                    (package_infos a)).
  { rewrite Forall_forall in *. intros p Hp. split; [apply Hshort | apply Hv]; exact Hp. }
  pose proof (packages_length_bound_short_names _ Hboth) as Hpk.
  pose proof (digests_length _ Hd) as Hdig.
  assert (Hgoal : N.of_nat (length (i2d_KM_ATTESTATION_APPLICATION_ID a)) + 4
                  <= included_estimate a).
  { unfold included_estimate in *.
    unfold i2d_KM_ATTESTATION_APPLICATION_ID, DER.sequence.
    size_facts.
    pose proof (set_of_length (map i2d_KM_ATTESTATION_PACKAGE_INFO (package_infos a))
                  ltac:(lia)) as Hs1.
    pose proof (set_of_length (map DER.octet_string (signature_digests a)) ltac:(lia)) as Hs2.
    pose proof (tlv_length x30
                  (DER.set_of (map i2d_KM_ATTESTATION_PACKAGE_INFO (package_infos a))
                   ++ DER.set_of (map DER.octet_string (signature_digests a)))) as Hseq.
    rewrite length_app in Hseq. specialize (Hseq ltac:(lia)).
    lia. }
  split; [exact Hgoal | lia].
Qed.

(** X2, at scenario 3 of the spec. *)
Lemma X2_witness_shared_uid :
  N.of_nat (length (i2d_KM_ATTESTATION_APPLICATION_ID shared_uid_encoded)) + 4
    <= included_estimate shared_uid_encoded /\
  N.of_nat (length (i2d_KM_ATTESTATION_APPLICATION_ID shared_uid_encoded)) + 4
    <= KEY_ATTESTATION_APPLICATION_ID_MAX_SIZE.
Proof.
  apply (X2_short_names_keep_output_within_cap shared_uid_packages shared_uid_encoded).
  - apply explicit_names_in_memory. vm_compute. reflexivity.
  - vm_compute. reflexivity.
  - repeat constructor; vm_compute; discriminate.
Defined.

(** X7.  A successful call encodes at most 67 packages and at most 29
    digests, and every digest has 32 bytes. *)
Theorem X7_encoded_counts_are_bounded :
  forall (id : KeyAttestationApplicationId) (a : KM_ATTESTATION_APPLICATION_ID),
    names_in_memory id ->
    build_KM_ATTESTATION_APPLICATION_ID id = Val a ->
    (length (package_infos a) <= 67)%nat /\
    (length (signature_digests a) <= 29)%nat /\
    Forall (fun d => length d = 32%nat) (signature_digests a).
Proof.
  intros id a Hmem Hbuild.
  destruct (included_estimate_within_cap id a Hmem Hbuild) as (Hcap & Hd & _).
  pose proof (km_packages_cost_lower (package_infos a)) as Hlow.
  unfold included_estimate in Hcap. size_facts.
  repeat split; [lia | lia | exact Hd].
Qed.

(** Both bounds are reached: 67 of a hundred packages with empty names, and
    29 of forty digests behind one package with an empty name. *)
Example encoded_counts_are_reached :
  match build_KM_ATTESTATION_APPLICATION_ID
          (mkApplicationId (repeat (plain_package 0 1) 100)),
        build_KM_ATTESTATION_APPLICATION_ID (many_signatures 40) with
  | Val a, Val b =>
      length (package_infos a) = 67%nat /\ length (signature_digests b) = 29%nat
  | _, _ => False
  end.
Proof. vm_compute. split; reflexivity. Qed.

(** X7, at scenario 4 of the spec. *)
Lemma X7_witness_hundred_packages :
  (length (package_infos four_packages_encoded) <= 67)%nat /\
  (length (signature_digests four_packages_encoded) <= 29)%nat /\
  Forall (fun d => length d = 32%nat) (signature_digests four_packages_encoded).
Proof.
  apply (X7_encoded_counts_are_bounded hundred_packages four_packages_encoded).
  - apply repeat_names_in_memory. vm_compute. reflexivity.
  - vm_compute. reflexivity.
Defined.

(** Behind the first package that takes the estimate over the cap, the loop
    reads nothing. *)
Lemma package_loop_ignores_tail
    (p : KeyAttestationPackageInfo) (rest rest' : list KeyAttestationPackageInfo)
    (pre : list KeyAttestationPackageInfo) :
  forall est0 stack,
    est0 <= KEY_ATTESTATION_APPLICATION_ID_MAX_SIZE ->
    Forall (fun q => name_size q < 2 ^ 63) (pre ++ [p]) ->
    KEY_ATTESTATION_APPLICATION_ID_MAX_SIZE < est0 + packages_cost (pre ++ [p]) ->
    package_loop (pre ++ p :: rest) est0 stack = package_loop (pre ++ p :: rest') est0 stack.
Proof.
  induction pre as [|q pre IH]; intros est0 stack Hest Hsmall Hover;
    cbn [app] in *; inversion Hsmall as [|? ? Hq Hrest]; subst;
    cbn [package_loop]; unfold build_attestation_package_info.
  - assert (Hns : name_size p =
                  match packageName p with Some n => string_size (c_str n) | None => 0 end)
      by reflexivity.
    destruct (packageName p) as [name|]; [|reflexivity].
    cbv zeta. rewrite <- Hns.
    assert (Hadd : size_t_add est0 (size_t_add AAID_PKG_INFO_OVERHEAD (name_size p))
                   = est0 + (AAID_PKG_INFO_OVERHEAD + name_size p)).
    { size_facts.
      rewrite (size_t_add_small AAID_PKG_INFO_OVERHEAD) by (rewrite pow64; lia).
      apply size_t_add_small. rewrite pow64; lia. }
    rewrite Hadd. cbn [packages_cost] in Hover.
    assert (Hcmp : (KEY_ATTESTATION_APPLICATION_ID_MAX_SIZE <?
                    est0 + (AAID_PKG_INFO_OVERHEAD + name_size p)) = true)
      by (apply N.ltb_lt; lia).
    rewrite Hcmp. reflexivity.
  - assert (Hns : name_size q =
                  match packageName q with Some n => string_size (c_str n) | None => 0 end)
      by reflexivity.
    destruct (packageName q) as [name|]; [|reflexivity].
    cbv zeta. rewrite <- Hns.
    assert (Hadd : size_t_add est0 (size_t_add AAID_PKG_INFO_OVERHEAD (name_size q))
                   = est0 + (AAID_PKG_INFO_OVERHEAD + name_size q)).
    { size_facts.
      rewrite (size_t_add_small AAID_PKG_INFO_OVERHEAD) by (rewrite pow64; lia).
      apply size_t_add_small. rewrite pow64; lia. }
    rewrite Hadd.
    destruct (KEY_ATTESTATION_APPLICATION_ID_MAX_SIZE <?
              est0 + (AAID_PKG_INFO_OVERHEAD + name_size q)) eqn:Hcmp; [reflexivity|].
    apply N.ltb_ge in Hcmp.
    apply IH; [exact Hcmp | exact Hrest |].
    cbn [packages_cost] in Hover. lia.
Qed.

(** X4.  Whatever follows the first package that takes the cumulative
    estimate over the cap has no influence on the result: two inputs that
    agree up to and including that package give the same result, be it bytes
    or an error. *)
Theorem X4_packages_behind_the_cut_are_ignored :
  forall (pre : list KeyAttestationPackageInfo) (p : KeyAttestationPackageInfo)
         (rest rest' : list KeyAttestationPackageInfo),
    Forall (fun q => name_size q < 2 ^ 63) (pre ++ [p]) ->
    KEY_ATTESTATION_APPLICATION_ID_MAX_SIZE < estimate (pre ++ [p]) ->
    build_attestation_application_id (mkApplicationId (pre ++ p :: rest))
    = build_attestation_application_id (mkApplicationId (pre ++ p :: rest')).
Proof.
  intros pre p rest rest' Hsmall Hover. unfold estimate in Hover.
  pose proof (package_loop_ignores_tail p rest rest' pre AAID_GENERAL_OVERHEAD []
                ltac:(size_facts; lia) Hsmall Hover) as Hloop.
  unfold build_attestation_application_id, build_KM_ATTESTATION_APPLICATION_ID.
  cbn [packageInfos]. rewrite Hloop.
  destruct pre as [|q pre]; reflexivity.
Qed.

(** X4, at the five packages of which four fit, with and without a hundred
    more behind them. *)
Lemma X4_witness_five_packages :
  build_attestation_application_id
    (mkApplicationId (packageInfos five_packages_signed ++ []))
  = build_attestation_application_id
      (mkApplicationId (packageInfos five_packages_signed ++ packageInfos hundred_packages)).
Proof.
  apply (X4_packages_behind_the_cut_are_ignored
           (firstn 4 (packageInfos five_packages_signed)) (plain_package 200 1)
           [] (packageInfos hundred_packages)).
  - refine (explicit_names_in_memory
              (mkApplicationId
                 (firstn 4 (packageInfos five_packages_signed) ++ [plain_package 200 1])) _).
    vm_compute. reflexivity.
  - vm_compute. reflexivity.
Defined.

(** Behind the first digest that takes the estimate over the cap, the digest
    loop reads nothing. *)
Lemma digest_loop_ignores_tail (d : bytes) (drest drest' : list bytes) (d_pre : list bytes) :
  forall est0 stack,
    est0 < 2 ^ 63 + 2048 ->
    KEY_ATTESTATION_APPLICATION_ID_MAX_SIZE
      < est0 + AAID_SIGNATURE_SIZE * N.of_nat (S (length d_pre)) ->
    snd (digest_loop (d_pre ++ d :: drest) est0 stack)
    = snd (digest_loop (d_pre ++ d :: drest') est0 stack).
Proof.
  induction d_pre as [|e d_pre IH]; intros est0 stack Hest Hover;
    cbn [app digest_loop length] in *; cbv zeta;
    rewrite size_t_add_small by (size_facts; lia).
  - assert (Hcmp : (KEY_ATTESTATION_APPLICATION_ID_MAX_SIZE <? est0 + AAID_SIGNATURE_SIZE) = true)
      by (apply N.ltb_lt; lia).
    rewrite Hcmp. reflexivity.
  - destruct (KEY_ATTESTATION_APPLICATION_ID_MAX_SIZE <? est0 + AAID_SIGNATURE_SIZE) eqn:Hcmp;
      [reflexivity|].
    apply N.ltb_ge in Hcmp.
    apply IH; size_facts; lia.
Qed.

(** X5.  Whatever follows the first signature of the first package whose
    digest takes the estimate over the cap has no influence on the result. *)
Theorem X5_signatures_behind_the_cut_are_ignored :
  forall (name : option bytes) (v : Z) (s_pre : list Signature) (s : Signature)
         (srest srest' : list Signature) (others : list KeyAttestationPackageInfo),
    names_in_memory (mkApplicationId (mkPackageInfo name v (s_pre ++ s :: srest) :: others)) ->
    KEY_ATTESTATION_APPLICATION_ID_MAX_SIZE
      < estimate_after_packages
          (mkApplicationId (mkPackageInfo name v (s_pre ++ s :: srest) :: others))
        + AAID_SIGNATURE_SIZE * N.of_nat (S (length s_pre)) ->
    build_attestation_application_id
      (mkApplicationId (mkPackageInfo name v (s_pre ++ s :: srest) :: others))
    = build_attestation_application_id
        (mkApplicationId (mkPackageInfo name v (s_pre ++ s :: srest') :: others)).
Proof.
  intros name v s_pre s srest srest' others Hmem Hover.
  assert (Hloop : package_loop (mkPackageInfo name v (s_pre ++ s :: srest') :: others)
                    AAID_GENERAL_OVERHEAD []
                  = package_loop (mkPackageInfo name v (s_pre ++ s :: srest) :: others)
                      AAID_GENERAL_OVERHEAD []).
  { apply package_loop_ignores_signatures. constructor; [split; reflexivity|].
    clear. induction others as [|q others IH]; constructor; [split; reflexivity | exact IH]. }
  unfold estimate_after_packages in Hover.
  unfold build_attestation_application_id, build_KM_ATTESTATION_APPLICATION_ID.
  cbn [packageInfos signatures] in *. rewrite Hloop.
  destruct (package_loop (mkPackageInfo name v (s_pre ++ s :: srest) :: others)
              AAID_GENERAL_OVERHEAD []) as [rc|[est st]] eqn:Hrun; [reflexivity|].
  cbv zeta.
  destruct (package_loop_spec _ AAID_GENERAL_OVERHEAD [] est st
              ltac:(size_facts; lia) Hmem Hrun) as (_ & _ & _ & _ & _ & _ & Hbound).
  pose proof (digest_loop_ignores_tail (signature2SHA256 s)
                (map signature2SHA256 srest) (map signature2SHA256 srest')
                (map signature2SHA256 s_pre) est [] Hbound) as Htail.
  rewrite length_map in Htail. specialize (Htail Hover).
  rewrite !map_app. cbn [map].
  destruct (digest_loop (map signature2SHA256 s_pre
                         ++ signature2SHA256 s :: map signature2SHA256 srest) est [])
    as [e1 ds1].
  destruct (digest_loop (map signature2SHA256 s_pre
                         ++ signature2SHA256 s :: map signature2SHA256 srest') est [])
    as [e2 ds2].
  cbn [snd] in Htail. subst ds2. reflexivity.
Qed.

(** X5, at one package with an empty name: the 30th signature and what
    follows it are dropped. *)
Lemma X5_witness_thirty_signatures :
  build_attestation_application_id (many_signatures 30)
  = build_attestation_application_id (many_signatures 40).
Proof.
  apply (X5_signatures_behind_the_cut_are_ignored
           (Some []) 1 (repeat cert_A 29) cert_A [] (repeat cert_A 10) []).
  - apply explicit_names_in_memory. vm_compute. reflexivity.
  - vm_compute. reflexivity.
Defined.

Lemma c_str_no_NUL (s : bytes) : ~ In x00 (c_str s).
Proof.
  induction s as [|b s IH]; cbn [c_str]; [intros []|].
  destruct (Byte.eqb b x00) eqn:Hb; [intros []|].
  intros [Heq | Hin]; [|exact (IH Hin)].
  apply Byte.eqb_false in Hb. congruence.
Qed.

Lemma c_str_verbatim (s : bytes) : ~ In x00 s -> c_str s = s.
Proof.
  induction s as [|b s IH]; intro Hno; cbn [c_str]; [reflexivity|].
  destruct (Byte.eqb b x00) eqn:Hb.
  - apply Byte.byte_dec_bl in Hb. subst b. exfalso. apply Hno. left. reflexivity.
  - rewrite IH; [reflexivity|]. intro Hin. apply Hno. right. exact Hin.
Qed.

Lemma c_str_cut (s t : bytes) : ~ In x00 s -> c_str (s ++ x00 :: t) = s.
Proof.
  induction s as [|b s IH]; intro Hno; cbn [app c_str]; [reflexivity|].
  destruct (Byte.eqb b x00) eqn:Hb.
  - apply Byte.byte_dec_bl in Hb. subst b. exfalso. apply Hno. left. reflexivity.
  - rewrite IH; [reflexivity|]. intro Hin. apply Hno. right. exact Hin.
Qed.

Lemma package_loop_stack (P : KM_ATTESTATION_PACKAGE_INFO -> Prop)
    (pkgs : list KeyAttestationPackageInfo) :
  (forall name v, P (mkKmPackageInfo (c_str name) v)) ->
  forall est0 stack est st,
    Forall P stack ->
    package_loop pkgs est0 stack = Val (est, st) ->
    Forall P st.
Proof.
  intro HP. induction pkgs as [|p rest IH]; intros est0 stack est st Hstack Hrun;
    cbn [package_loop] in Hrun.
  - apply Val_inj, pair_equal_spec in Hrun. destruct Hrun as [_ <-]. exact Hstack.
  - unfold build_attestation_package_info in Hrun.
    destruct (packageName p) as [name|]; [|discriminate].
    cbv zeta in Hrun.
    match type of Hrun with
    | (if ?c then _ else _) = _ => destruct c
    end.
    + apply Val_inj, pair_equal_spec in Hrun. destruct Hrun as [_ <-]. exact Hstack.
    + eapply IH; [|exact Hrun].
      apply Forall_app. split; [exact Hstack|]. constructor; [apply HP | constructor].
Qed.

(** The package loop reads a name only up to its first zero byte. *)
Lemma package_loop_reads_c_str (ps qs : list KeyAttestationPackageInfo) :
  Forall2 (fun p q => option_map c_str (packageName p) = option_map c_str (packageName q)
                      /\ versionCode p = versionCode q) ps qs ->
  forall est0 stack, package_loop ps est0 stack = package_loop qs est0 stack.
Proof.
  induction 1 as [|p q ps qs [Hn Hv] _ IH]; intros est0 stack; [reflexivity|].
  cbn [package_loop]. unfold build_attestation_package_info.
  rewrite <- Hv.
  destruct (packageName p) as [n1|], (packageName q) as [n2|]; cbn [option_map] in Hn;
    try discriminate; [|reflexivity].
  injection Hn as Hn. cbv zeta. rewrite <- Hn.
  match goal with |- context [if ?c then _ else _] => destruct c end;
    [reflexivity | apply IH].
Qed.

(** X6.  A package name is encoded up to its first zero byte only: no
    encoded name contains a zero byte, and two inputs whose names agree up to
    their first zero byte (versions and signatures being equal) give the same
    result. *)
Theorem X6_names_end_at_the_first_zero_byte :
  (forall (id : KeyAttestationApplicationId) (a : KM_ATTESTATION_APPLICATION_ID),
     build_KM_ATTESTATION_APPLICATION_ID id = Val a ->
     Forall (fun p => ~ In x00 (package_name p)) (package_infos a)) /\
  (forall ps qs : list KeyAttestationPackageInfo,
     Forall2 (fun p q => option_map c_str (packageName p) = option_map c_str (packageName q)
                         /\ versionCode p = versionCode q
                         /\ signatures p = signatures q) ps qs ->
     build_attestation_application_id (mkApplicationId ps)
     = build_attestation_application_id (mkApplicationId qs)).
Proof.
  split.
  - intros id a Hbuild.
    destruct (build_KM_inv id a Hbuild) as (_ & Hrun & _).
    apply (package_loop_stack _ (packageInfos id)
             (fun name v => c_str_no_NUL name) _ _ _ _ (Forall_nil _) Hrun).
  - intros ps qs Hsame.
    assert (Hloop : forall est0 stack, package_loop ps est0 stack = package_loop qs est0 stack).
    { apply package_loop_reads_c_str.
      induction Hsame as [|p q ps qs (Hn & Hv & _) _ IH]; constructor;
        [split; assumption | exact IH]. }
    unfold build_attestation_application_id, build_KM_ATTESTATION_APPLICATION_ID.
    cbn [packageInfos]. rewrite Hloop.
    destruct Hsame as [|p q ps qs (_ & _ & Hs) _]; [reflexivity|].
    rewrite Hs. reflexivity.
Qed.

(** X6, at scenario 3 of the spec with a zero byte and more behind the first
    name. *)
Lemma X6_witness_name_with_NUL :
  Forall (fun p => ~ In x00 (package_name p)) (package_infos shared_uid_encoded) /\
  build_attestation_application_id shared_uid_packages_with_NUL
  = build_attestation_application_id shared_uid_packages.
Proof.
  split.
  - apply (proj1 X6_names_end_at_the_first_zero_byte shared_uid_packages_with_NUL).
    vm_compute. reflexivity.
  - apply (proj2 X6_names_end_at_the_first_zero_byte).
    repeat constructor.
Defined.

Lemma to_N_byte_of_N (n : N) : Byte.to_N (byte_of_N n) = n mod 256.
Proof.
  unfold byte_of_N.
  destruct (Byte.of_N (n mod 256)) as [b|] eqn:Hb.
  - apply Byte.to_of_N. exact Hb.
  - apply Byte.of_N_None_iff in Hb.
    pose proof (N.mod_upper_bound n 256 ltac:(lia)). lia.
Qed.

Lemma be_combine_app (l : bytes) (b : byte) (acc : N) :
  SHA.be_combine (l ++ [b]) acc = 256 * SHA.be_combine l acc + Byte.to_N b.
Proof.
  revert acc; induction l as [|x l IH]; intro acc; cbn [app SHA.be_combine]; [reflexivity|].
  apply IH.
Qed.

(** Reading back the bytes of [be_split]. *)
Lemma be_combine_split (k : nat) (n : N) :
  SHA.be_combine (be_split k n) 0 = n mod 2 ^ (8 * N.of_nat k).
Proof.
  revert n; induction k as [|k IH]; intro n.
  - cbn. rewrite N.mod_1_r. reflexivity.
  - cbn [be_split]. rewrite be_combine_app, IH, to_N_byte_of_N.
    replace (8 * N.of_nat (S k)) with (8 + 8 * N.of_nat k) by lia.
    rewrite N.pow_add_r. change (2 ^ 8) with 256.
    rewrite N.Div0.mod_mul_r, N.shiftr_div_pow2. change (2 ^ 8) with 256. lia.
Qed.

Lemma num_bytes_covers (v : N) : v < 2 ^ (8 * N.of_nat (num_bytes v)).
Proof.
  unfold num_bytes. rewrite N2Nat.id.
  apply N.lt_le_trans with (2 ^ N.size v); [apply N.size_gt|].
  apply N.pow_le_mono_r; [lia|].
  pose proof (N.Div0.mod_le (N.size v + 7) 8).
  pose proof (N.div_mod (N.size v + 7) 8 ltac:(lia)).
  pose proof (N.mod_upper_bound (N.size v + 7) 8 ltac:(lia)).
  lia.
Qed.

Lemma integer_content_decodes (v : N) : be_value (DER.integer_content v) = v.
Proof.
  unfold be_value, DER.integer_content.
  destruct (v =? 0) eqn:Hz; [apply N.eqb_eq in Hz; subst; reflexivity|].
  assert (Hsplit : SHA.be_combine (be_split (num_bytes v) v) 0 = v).
  { rewrite be_combine_split. apply N.mod_small. apply num_bytes_covers. }
  destruct (N.testbit v _); [cbn [SHA.be_combine]|]; exact Hsplit.
Qed.

Lemma integer_content_not_nil (v : N) : (1 <= length (DER.integer_content v))%nat.
Proof.
  unfold DER.integer_content.
  destruct (v =? 0) eqn:Hz; [cbn; lia|].
  apply N.eqb_neq in Hz.
  assert (Hk : (1 <= num_bytes v)%nat).
  { destruct (num_bytes v) eqn:Hn; [|lia].
    pose proof (num_bytes_covers v) as H. rewrite Hn in H. cbn in H. lia. }
  destruct (N.testbit v _); cbn [length]; rewrite length_be_split; lia.
Qed.

(** X8.  The version of a package is written as the unsigned 64-bit image of
    its version code: the code itself when it is not negative, the code plus
    2^64 when it is.  The INTEGER field takes between 3 and 11 bytes, the 11
    bytes the estimate allows for it, and its content read as a big-endian
    number gives the version back. *)
Theorem X8_version_is_the_unsigned_image_of_the_version_code :
  forall (name : bytes) (v : Z) (sigs : list Signature),
    (- 2 ^ 63 <= v < 2 ^ 63)%Z ->
    exists info,
      build_attestation_package_info (mkPackageInfo (Some name) v sigs) = Val info /\
      Z.of_N (version info) = (if (v <? 0)%Z then v + 2 ^ 64 else v)%Z /\
      (3 <= length (DER.integer (version info)) <= 11)%nat /\
      be_value (DER.integer_content (version info)) = version info.
Proof.
  intros name v sigs Hv.
  eexists. split; [reflexivity|]. cbn [version versionCode].
  split; [|split].
  - unfold to_uint64. rewrite Z2N.id by (apply Z.mod_pos_bound; lia).
    destruct (v <? 0)%Z eqn:Hneg.
    + apply Z.ltb_lt in Hneg.
      symmetry. apply (Z.mod_unique v (2 ^ 64) (-1)); lia.
    + apply Z.ltb_ge in Hneg. apply Z.mod_small. lia.
  - pose proof (integer_content_length (to_uint64 v) 8 (to_uint64_bound v)) as Hup.
    pose proof (integer_content_not_nil (to_uint64 v)) as Hlow.
    unfold DER.integer. rewrite tlv_length_short by lia. lia.
  - apply integer_content_decodes.
Qed.

(** X8, at the version code -1. *)
Lemma X8_witness_minus_one :
  exists info,
    build_attestation_package_info (mkPackageInfo (Some (list_byte_of_string "com.a")) (-1) [])
      = Val info /\
    Z.of_N (version info) = (if (-1 <? 0)%Z then -1 + 2 ^ 64 else -1)%Z /\
    (3 <= length (DER.integer (version info)) <= 11)%nat /\
    be_value (DER.integer_content (version info)) = version info.
Proof.
  apply (X8_version_is_the_unsigned_image_of_the_version_code
           (list_byte_of_string "com.a") (-1) []).
  lia.
Defined.

Lemma to_N_inj (x y : byte) : Byte.to_N x = Byte.to_N y -> x = y.
Proof.
  intro H. pose proof (Byte.of_to_N x) as Hx. rewrite H, Byte.of_to_N in Hx.
  congruence.
Qed.

Lemma bytes_leb_total (a b : bytes) : bytes_leb a b = true \/ bytes_leb b a = true.
Proof.
  revert b; induction a as [|x a IH]; intros [|y b]; cbn [bytes_leb]; auto.
  destruct (Byte.to_N x <? Byte.to_N y) eqn:Hxy; [auto|].
  destruct (Byte.to_N y <? Byte.to_N x) eqn:Hyx; [auto|].
  apply IH.
Qed.

Lemma bytes_leb_antisym (a b : bytes) :
  bytes_leb a b = true -> bytes_leb b a = true -> a = b.
Proof.
  revert b; induction a as [|x a IH]; intros [|y b]; cbn [bytes_leb];
    try discriminate; [reflexivity|].
  destruct (Byte.to_N x <? Byte.to_N y) eqn:Hxy.
  - apply N.ltb_lt in Hxy.
    destruct (Byte.to_N y <? Byte.to_N x) eqn:Hyx; [apply N.ltb_lt in Hyx; lia | discriminate].
  - destruct (Byte.to_N y <? Byte.to_N x) eqn:Hyx; [discriminate|].
    apply N.ltb_ge in Hxy, Hyx.
    intros H1 H2. f_equal; [apply to_N_inj; lia | apply IH; assumption].
Qed.

Lemma bytes_leb_trans (a b c : bytes) :
  bytes_leb a b = true -> bytes_leb b c = true -> bytes_leb a c = true.
Proof.
  revert b c; induction a as [|x a IH]; intros [|y b] [|z c]; cbn [bytes_leb];
    try discriminate; try reflexivity.
  intros H1 H2.
  destruct (N.ltb_spec (Byte.to_N x) (Byte.to_N y));
    destruct (N.ltb_spec (Byte.to_N y) (Byte.to_N x));
    destruct (N.ltb_spec (Byte.to_N y) (Byte.to_N z));
    destruct (N.ltb_spec (Byte.to_N z) (Byte.to_N y));
    destruct (N.ltb_spec (Byte.to_N x) (Byte.to_N z));
    destruct (N.ltb_spec (Byte.to_N z) (Byte.to_N x));
    try discriminate; try reflexivity; try lia.
  eapply IH; eassumption.
Qed.

(** Two insertions commute. *)
Lemma insert_sorted_comm (x y : bytes) (l : list bytes) :
  DER.insert_sorted x (DER.insert_sorted y l) = DER.insert_sorted y (DER.insert_sorted x l).
Proof.
  induction l as [|z l IH]; cbn [DER.insert_sorted].
  - destruct (bytes_leb x y) eqn:Hxy, (bytes_leb y x) eqn:Hyx; try reflexivity.
    + rewrite (bytes_leb_antisym x y Hxy Hyx). reflexivity.
    + destruct (bytes_leb_total x y); congruence.
  - destruct (bytes_leb x z) eqn:Hxz, (bytes_leb y z) eqn:Hyz; cbn [DER.insert_sorted].
    + rewrite Hxz, Hyz.
      destruct (bytes_leb x y) eqn:Hxy, (bytes_leb y x) eqn:Hyx; try reflexivity.
      * rewrite (bytes_leb_antisym x y Hxy Hyx). reflexivity.
      * destruct (bytes_leb_total x y); congruence.
    + rewrite Hxz, Hyz.
      destruct (bytes_leb y x) eqn:Hyx; [|reflexivity].
      rewrite (bytes_leb_trans y x z Hyx Hxz) in Hyz. discriminate.
    + rewrite Hxz, Hyz.
      destruct (bytes_leb x y) eqn:Hxy; [|reflexivity].
      rewrite (bytes_leb_trans x y z Hxy Hyz) in Hxz. discriminate.
    + rewrite Hxz, Hyz, IH. reflexivity.
Qed.

(** The members of a SET OF come out in the same order however they went
    in. *)
Lemma sort_members_permutation (l l' : list bytes) :
  Permutation l l' -> DER.sort_members l = DER.sort_members l'.
Proof.
  unfold DER.sort_members.
  induction 1 as [| x l l' _ IH | x y l | l l' l'' _ IH1 _ IH2]; cbn [fold_right].
  - reflexivity.
  - rewrite IH. reflexivity.
  - apply insert_sorted_comm.
  - congruence.
Qed.









Lemma packages_cost_permutation (ps qs : list KeyAttestationPackageInfo) :
  Permutation ps qs -> packages_cost ps = packages_cost qs.
Proof.
  induction 1 as [| x l l' _ IH | x y l | l l' l'' _ IH1 _ IH2];
    cbn [packages_cost]; lia.
Qed.

(** When everything fits, the loop pushes every package. *)
Lemma package_loop_all_fit (pkgs : list KeyAttestationPackageInfo) :
  forall est0 stack,
    Forall (fun p => packageName p <> None) pkgs ->
    Forall (fun p => name_size p < 2 ^ 63) pkgs ->
    est0 + packages_cost pkgs <= KEY_ATTESTATION_APPLICATION_ID_MAX_SIZE ->
    package_loop pkgs est0 stack
    = Val (est0 + packages_cost pkgs, stack ++ map km_info_of pkgs).
Proof.
  induction pkgs as [|p rest IH]; intros est0 stack Hnamed Hsmall Hfit.
  - cbn [package_loop packages_cost map]. rewrite app_nil_r, N.add_0_r. reflexivity.
  - inversion Hnamed as [|? ? Hp Hn]; inversion Hsmall as [|? ? Hs Hr]; subst.
    cbn [package_loop packages_cost map] in *. unfold build_attestation_package_info.
    assert (Hns : name_size p =
                  match packageName p with Some n => string_size (c_str n) | None => 0 end)
      by reflexivity.
    assert (Hinfo : km_info_of p =
                    mkKmPackageInfo
                      (match packageName p with Some name => c_str name | None => [] end)
                      (to_uint64 (versionCode p))) by reflexivity.
    destruct (packageName p) as [name|]; [|congruence].
    cbv zeta. rewrite <- Hns, <- Hinfo.
    assert (Hadd : size_t_add est0 (size_t_add AAID_PKG_INFO_OVERHEAD (name_size p))
                   = est0 + (AAID_PKG_INFO_OVERHEAD + name_size p)).
    { size_facts.
      rewrite (size_t_add_small AAID_PKG_INFO_OVERHEAD) by (rewrite pow64; lia).
      apply size_t_add_small. rewrite pow64; lia. }
    rewrite Hadd.
    assert (Hcmp : (KEY_ATTESTATION_APPLICATION_ID_MAX_SIZE <?
                    est0 + (AAID_PKG_INFO_OVERHEAD + name_size p)) = false)
      by (apply N.ltb_ge; lia).
    rewrite Hcmp, IH by (try assumption; lia).
    rewrite <- app_assoc. cbn [app]. f_equal. f_equal. lia.
Qed.

(** X9.  When all packages have a name and fit the cap together, the order
    of the packages after the first has no influence on the bytes: the
    members of the SET OF are written in the order of their encodings. *)
Theorem X9_order_of_later_packages_is_immaterial :
  forall (p : KeyAttestationPackageInfo) (ps qs : list KeyAttestationPackageInfo),
    Permutation ps qs ->
    valid_input (mkApplicationId (p :: ps)) ->
    names_in_memory (mkApplicationId (p :: ps)) ->
    estimate (p :: ps) <= KEY_ATTESTATION_APPLICATION_ID_MAX_SIZE ->
    build_attestation_application_id (mkApplicationId (p :: ps))
    = build_attestation_application_id (mkApplicationId (p :: qs)) /\
    isOk (build_attestation_application_id (mkApplicationId (p :: ps))) = true.
Proof.
  intros p ps qs Hperm [_ Hnamed] Hsmall Hfit.
  unfold names_in_memory in Hsmall. cbn [packageInfos] in *. unfold estimate in Hfit.
  assert (Hperm' : Permutation (p :: ps) (p :: qs)) by (constructor; exact Hperm).
  pose proof (package_loop_all_fit (p :: ps) AAID_GENERAL_OVERHEAD [] Hnamed Hsmall Hfit) as H1.
  pose proof (package_loop_all_fit (p :: qs) AAID_GENERAL_OVERHEAD []
                (Permutation_Forall Hperm' Hnamed) (Permutation_Forall Hperm' Hsmall)) as H2.
  rewrite <- (packages_cost_permutation _ _ Hperm') in H2. specialize (H2 Hfit).
  unfold build_attestation_application_id, build_KM_ATTESTATION_APPLICATION_ID.
  cbn [packageInfos]. rewrite H1, H2. cbv zeta.
  destruct (digest_loop (map signature2SHA256 (signatures p))
              (AAID_GENERAL_OVERHEAD + packages_cost (p :: ps)) []) as [est ds].
  split; [|reflexivity].
  f_equal. unfold i2d_KM_ATTESTATION_APPLICATION_ID, DER.set_of.
  cbn [package_infos signature_digests app].
  rewrite (sort_members_permutation
             (map i2d_KM_ATTESTATION_PACKAGE_INFO (map km_info_of (p :: ps)))
             (map i2d_KM_ATTESTATION_PACKAGE_INFO (map km_info_of (p :: qs)))).
  - reflexivity.
  - apply Permutation_map, Permutation_map. exact Hperm'.
Qed.

(** X9, at three packages of which the last two change places. *)
Lemma X9_witness_three_packages :
  build_attestation_application_id
    (three_packages (list_byte_of_string "com.b") (list_byte_of_string "com.c"))
  = build_attestation_application_id
      (mkApplicationId
         [ mkPackageInfo (Some (list_byte_of_string "com.a")) 1 [cert_A; cert_X];
           mkPackageInfo (Some (list_byte_of_string "com.c")) 3 [];
           mkPackageInfo (Some (list_byte_of_string "com.b")) 2 [] ]) /\
  isOk (build_attestation_application_id
          (three_packages (list_byte_of_string "com.b") (list_byte_of_string "com.c"))) = true.
Proof.
  apply (X9_order_of_later_packages_is_immaterial
           (mkPackageInfo (Some (list_byte_of_string "com.a")) 1 [cert_A; cert_X])
           [ mkPackageInfo (Some (list_byte_of_string "com.b")) 2 [];
             mkPackageInfo (Some (list_byte_of_string "com.c")) 3 [] ]
           [ mkPackageInfo (Some (list_byte_of_string "com.c")) 3 [];
             mkPackageInfo (Some (list_byte_of_string "com.b")) 2 [] ]).
  - apply perm_swap.
  - split; [discriminate | repeat constructor; discriminate].
  - apply explicit_names_in_memory. vm_compute. reflexivity.
  - vm_compute. discriminate.
Defined.

(** When every digest fits, the loop pushes them all. *)
Lemma digest_loop_all_fit (digests : list bytes) :
  forall est0 stack,
    est0 + AAID_SIGNATURE_SIZE * N.of_nat (length digests)
      <= KEY_ATTESTATION_APPLICATION_ID_MAX_SIZE ->
    digest_loop digests est0 stack
    = (est0 + AAID_SIGNATURE_SIZE * N.of_nat (length digests), stack ++ digests).
Proof.
  induction digests as [|d rest IH]; intros est0 stack Hfit; cbn [digest_loop length] in *.
  - rewrite app_nil_r. f_equal. lia.
  - cbv zeta. rewrite size_t_add_small by (size_facts; lia).
    assert (Hcmp : (KEY_ATTESTATION_APPLICATION_ID_MAX_SIZE <? est0 + AAID_SIGNATURE_SIZE)
                   = false) by (apply N.ltb_ge; lia).
    rewrite Hcmp, IH by lia.
    rewrite <- app_assoc. cbn [app]. f_equal. lia.
Qed.

(** X10.  When the digests of all signatures of the first package fit the
    budget that the package loop leaves, the order of those signatures has no
    influence on the result. *)
Theorem X10_order_of_signatures_is_immaterial :
  forall (name : option bytes) (v : Z) (sigs sigs' : list Signature)
         (others : list KeyAttestationPackageInfo),
    Permutation sigs sigs' ->
    estimate_after_packages (mkApplicationId (mkPackageInfo name v sigs :: others))
      + AAID_SIGNATURE_SIZE * N.of_nat (length sigs)
      <= KEY_ATTESTATION_APPLICATION_ID_MAX_SIZE ->
    build_attestation_application_id (mkApplicationId (mkPackageInfo name v sigs :: others))
    = build_attestation_application_id (mkApplicationId (mkPackageInfo name v sigs' :: others)).
Proof.
  intros name v sigs sigs' others Hperm Hfit.
  assert (Hloop : package_loop (mkPackageInfo name v sigs' :: others) AAID_GENERAL_OVERHEAD []
                  = package_loop (mkPackageInfo name v sigs :: others) AAID_GENERAL_OVERHEAD []).
  { apply package_loop_ignores_signatures. constructor; [split; reflexivity|].
    clear. induction others as [|q others IH]; constructor; [split; reflexivity | exact IH]. }
  unfold estimate_after_packages in Hfit.
  unfold build_attestation_application_id, build_KM_ATTESTATION_APPLICATION_ID.
  cbn [packageInfos signatures] in *. rewrite Hloop.
  destruct (package_loop (mkPackageInfo name v sigs :: others) AAID_GENERAL_OVERHEAD [])
    as [rc|[est st]]; [reflexivity|].
  cbv zeta.
  rewrite !digest_loop_all_fit
    by (rewrite length_map, <- ?(Permutation_length Hperm); exact Hfit).
  f_equal. unfold i2d_KM_ATTESTATION_APPLICATION_ID, DER.set_of.
  cbn [package_infos signature_digests app].
  rewrite (sort_members_permutation
             (map DER.octet_string (map signature2SHA256 sigs))
             (map DER.octet_string (map signature2SHA256 sigs'))).
  - reflexivity.
  - apply Permutation_map, Permutation_map. exact Hperm.
Qed.

(** X10, at scenario 3 of the spec with the roles of the packages changed:
    the first package carries two certificates. *)
Lemma X10_witness_two_certificates :
  build_attestation_application_id
    (mkApplicationId
       [ mkPackageInfo (Some (list_byte_of_string "com.b")) 2 [cert_X; cert_Y] ])
  = build_attestation_application_id
      (mkApplicationId
         [ mkPackageInfo (Some (list_byte_of_string "com.b")) 2 [cert_Y; cert_X] ]).
Proof.
  apply (X10_order_of_signatures_is_immaterial
           (Some (list_byte_of_string "com.b")) 2 [cert_X; cert_Y] [cert_Y; cert_X] []).
  - apply perm_swap.
  - vm_compute. discriminate.
Defined.

(** X15.  A successful call drops nothing exactly when the estimate of the
    whole input is within the cap: all packages are encoded and all
    signatures of the first package are digested if and only if the estimate
    of all packages is within the cap and, when there are signatures, still is
    after 34 more per signature; the encoded structure is then the whole
    input, package by package and digest by digest. *)
Theorem X15_nothing_is_dropped_iff_the_whole_estimate_fits :
  forall (id : KeyAttestationApplicationId) (a : KM_ATTESTATION_APPLICATION_ID),
    names_in_memory id ->
    build_KM_ATTESTATION_APPLICATION_ID id = Val a ->
    ((length (package_infos a) = length (packageInfos id) /\
      length (signature_digests a) = length (first_signatures id))
     <->
     (estimate (packageInfos id) <= KEY_ATTESTATION_APPLICATION_ID_MAX_SIZE /\
      (first_signatures id = [] \/
       estimate (packageInfos id)
         + AAID_SIGNATURE_SIZE * N.of_nat (length (first_signatures id))
       <= KEY_ATTESTATION_APPLICATION_ID_MAX_SIZE))) /\
    ((length (package_infos a) = length (packageInfos id) /\
      length (signature_digests a) = length (first_signatures id)) ->
     package_infos a = map km_info_of (packageInfos id) /\
     signature_digests a = map signature2SHA256 (first_signatures id)).
Proof.
  intros id a Hmem Hbuild.
  destruct (included_packages id a Hmem Hbuild)
    as (k & Hk & Hst & Hle & Hest & Hgt & Hbound).
  destruct (build_KM_inv id a Hbuild) as (_ & _ & Hdig).
  destruct (digest_loop_spec (map signature2SHA256 (first_signatures id))
              (estimate_after_packages id) [] Hbound) as (n & Hn & Hsnd & Hfit).
  rewrite Hsnd in Hdig. cbn [app] in Hdig. rewrite length_map in Hn, Hfit.
  rewrite firstn_map in Hdig.
  assert (Hlenp : length (package_infos a) = k)
    by (rewrite Hst, length_map, length_firstn; lia).
  assert (Hlend : length (signature_digests a) = n)
    by (rewrite Hdig, length_map, length_firstn; lia).
  rewrite Hlenp, Hlend. split; [split|].
  - intros [Hkall Hnall]. clear Hlenp Hlend. subst k n.
    rewrite firstn_all in Hle. rewrite firstn_all2 in Hest by lia.
    split; [exact Hle|].
    destruct (first_signatures id) as [|s sigs] eqn:Hsigs; [left; reflexivity | right].
    rewrite <- Hest. apply (Hfit (length (s :: sigs))); cbn [length]; lia.
  - intros [Hall Hsigs].
    assert (Hkall : k = length (packageInfos id)).
    { destruct (Nat.eq_dec k (length (packageInfos id))) as [|Hne]; [assumption|exfalso].
      specialize (Hgt ltac:(lia)).
      pose proof (packages_cost_firstn_mono (packageInfos id) (S k)
                    (length (packageInfos id)) ltac:(lia)) as Hmono.
      rewrite firstn_all in Hmono. unfold estimate in *. lia. }
    split; [exact Hkall|]. clear Hlenp Hlend. subst k.
    rewrite firstn_all2 in Hest by lia.
    destruct Hsigs as [Hnil | Hfits].
    + rewrite Hnil in *. cbn [length] in *. lia.
    + destruct (first_signatures id) as [|s sigs] eqn:Hs; [cbn [length] in *; lia|].
      apply Nat.le_antisymm; [exact Hn|].
      apply (Hfit (length (s :: sigs))); [cbn [length]; lia|].
      rewrite Hest. exact Hfits.
  - intros [Hkall Hnall]. clear Hlenp Hlend. subst k n.
    rewrite firstn_all in Hst, Hdig. split; assumption.
Qed.

(** X15, at scenario 3 of the spec, where everything fits. *)
Lemma X15_witness_shared_uid :
  ((length (package_infos shared_uid_encoded) = length (packageInfos shared_uid_packages) /\
    length (signature_digests shared_uid_encoded)
      = length (first_signatures shared_uid_packages))
   <->
   (estimate (packageInfos shared_uid_packages) <= KEY_ATTESTATION_APPLICATION_ID_MAX_SIZE /\
    (first_signatures shared_uid_packages = [] \/
     estimate (packageInfos shared_uid_packages)
       + AAID_SIGNATURE_SIZE * N.of_nat (length (first_signatures shared_uid_packages))
     <= KEY_ATTESTATION_APPLICATION_ID_MAX_SIZE))) /\
  ((length (package_infos shared_uid_encoded) = length (packageInfos shared_uid_packages) /\
    length (signature_digests shared_uid_encoded)
      = length (first_signatures shared_uid_packages)) ->
   package_infos shared_uid_encoded = map km_info_of (packageInfos shared_uid_packages) /\
   signature_digests shared_uid_encoded
     = map signature2SHA256 (first_signatures shared_uid_packages)).
Proof.
  apply (X15_nothing_is_dropped_iff_the_whole_estimate_fits
           shared_uid_packages shared_uid_encoded).
  - apply explicit_names_in_memory. vm_compute. reflexivity.
  - vm_compute. reflexivity.
Defined.

(* ===================================================================== *)
(** ** The gatherer: facts about the retry loop *)
(* ===================================================================== *)

Lemma replies_succ (w : world) (uid : N) (n : nat) :
  replies w uid (S n)
  = provider w (calls w) uid
    :: map (fun i => provider w (S (calls w) + i)%nat uid) (seq 0 n).
Proof.
  unfold replies. cbn [seq map]. rewrite Nat.add_0_r. f_equal.
  rewrite <- seq_shift, map_map.
  apply map_ext. intro i. f_equal. lia.
Qed.

(** The loop refines the policy: its actions are the policy's, its result is
    the first [Ok] answer or the last failure, and the provider is the same
    afterwards. *)
Lemma retry_loop_spec (n : nat) :
  forall uid status id0 w,
    fst (retry_loop n uid status id0 w) = retry_result (replies w uid n) status id0 /\
    trace (snd (retry_loop n uid status id0 w))
      = trace w ++ retry_policy uid (connected w) (map fst (replies w uid n)) /\
    provider (snd (retry_loop n uid status id0 w)) = provider w.
Proof.
  induction n as [|n IH]; intros uid status id0 w.
  - cbn. rewrite app_nil_r. repeat split; reflexivity.
  - rewrite replies_succ. cbn [map retry_result retry_policy].
    cbn [retry_loop]. unfold bind, get_service, getKeyAttestationApplicationId.
    unfold connected.
    destruct (gService w) as [pm|] eqn:Hg;
      cbn [fst snd gService connections calls provider trace];
      destruct (provider w (calls w) uid) as [st id] eqn:Hr; cbn [fst snd];
      destruct st; cbn [status_isOk];
      unfold ret, usleep, log, reset_service;
      cbn [fst snd gService connections calls provider trace];
      rewrite ?Hg;
      try (rewrite <- ?app_assoc; repeat split; reflexivity);
      match goal with
      | |- context [retry_loop n uid ?s id0 ?w1] =>
          destruct (IH uid s id0 w1) as (Hres & Htr & Hpr)
      end;
      unfold replies, connected in Hres, Htr;
      cbn [gService connections calls provider trace] in Hres, Htr, Hpr;
      rewrite ?Hg in Hres, Htr, Hpr;
      rewrite Hres, Htr, Hpr; rewrite <- ?app_assoc; repeat split; reflexivity.
Qed.

Lemma count_events_app (f : event -> bool) (t1 t2 : list event) :
  count_events f (t1 ++ t2) = (count_events f t1 + count_events f t2)%nat.
Proof. unfold count_events. rewrite filter_app, length_app. reflexivity. Qed.

(** Over answers that all fail, the policy calls and sleeps once per answer
    and resets once per transaction failure. *)
Lemma retry_policy_all_fail (uid : N) (statuses : list binder_Status) :
  Forall (fun s => status_isOk s = false) statuses ->
  forall c,
    count_events is_rpc (retry_policy uid c statuses) = length statuses /\
    count_events is_reset (retry_policy uid c statuses)
      = length (filter is_transaction_failed statuses) /\
    count_events is_sleep (retry_policy uid c statuses) = length statuses.
Proof.
  induction 1 as [|s rest Hs _ IH]; intro c; [repeat split; reflexivity|].
  cbn [retry_policy]. rewrite !count_events_app.
  destruct s; try discriminate;
    cbn [filter is_transaction_failed length];
    match goal with
    | |- context [retry_policy uid ?b rest] => destruct (IH b) as (H1 & H2 & H3)
    end;
    unfold count_events in *;
    destruct c; cbn [filter is_rpc is_reset is_sleep length app Nat.add];
    rewrite ?H1, ?H2, ?H3; repeat split; reflexivity.
Qed.

Lemma retry_result_all_fail (answers : list (binder_Status * KeyAttestationApplicationId)) :
  Forall (fun r => status_isOk (fst r) = false) answers ->
  forall status id0,
    answers <> [] \/ status_isOk status = false ->
    status_isOk (fst (retry_result answers status id0)) = false.
Proof.
  induction 1 as [|r rest Hr _ IH]; intros status id0 Hor.
  - destruct Hor as [Hne|Hst]; [congruence | exact Hst].
  - cbn [retry_result]. rewrite Hr. apply IH. right. exact Hr.
Qed.

Lemma retry_result_first_ok
    (pre post : list (binder_Status * KeyAttestationApplicationId))
    (id : KeyAttestationApplicationId) :
  Forall (fun r => status_isOk (fst r) = false) pre ->
  forall status id0,
    retry_result (pre ++ (EX_NONE, id) :: post) status id0 = (EX_NONE, id).
Proof.
  induction 1 as [|r rest Hr _ IH]; intros status id0.
  - reflexivity.
  - cbn [app retry_result]. rewrite Hr. apply IH.
Qed.

(** The gatherer for an ordinary uid, in terms of the provider's answers. *)
Lemma gather_unprivileged (uid : N) (w : world) :
  unprivileged uid ->
  let r := retry_result (replies w uid kMaxAttempts) EX_NONE (mkApplicationId []) in
  fst (gather_attestation_application_id uid w)
    = (if status_isOk (fst r) then build_attestation_application_id (snd r)
       else Err GET_ATTESTATION_APPLICATION_ID_FAILED) /\
  trace (snd (gather_attestation_application_id uid w))
    = trace w ++ retry_policy uid (connected w) (map fst (replies w uid kMaxAttempts)).
Proof.
  intros [Hsys Hroot]. cbv zeta.
  unfold gather_attestation_application_id.
  apply N.eqb_neq in Hsys, Hroot. rewrite Hsys, Hroot. cbn [orb].
  unfold bind.
  destruct (retry_loop_spec kMaxAttempts uid EX_NONE (mkApplicationId []) w)
    as (Hres & Htr & _).
  destruct (retry_loop kMaxAttempts uid EX_NONE (mkApplicationId []) w) as [r w'].
  cbn [fst snd] in Hres, Htr. rewrite <- Hres, <- Htr.
  destruct (status_isOk (fst r)); split; reflexivity.
Qed.

(* ===================================================================== *)
(** ** The gatherer: theorems *)
(* ===================================================================== *)

(** C5.  For the uids [AID_SYSTEM] and [AID_ROOT] the gatherer leaves the
    world as it found it, so it connects to nothing and calls nothing, and
    its result is the encoding of the single package named AndroidSystem with
    version 1 and no signature. *)
Theorem C5_system_and_root_skip_the_provider :
  AID_SYSTEM = 1000 /\ AID_ROOT = 0 /\
  (forall w, gather_attestation_application_id AID_SYSTEM w
             = (build_attestation_application_id system_application_id, w)) /\
  (forall w, gather_attestation_application_id AID_ROOT w
             = (build_attestation_application_id system_application_id, w)).
Proof. repeat split; reflexivity. Qed.

(** Scenario 1 of the spec: the bytes for a system caller. *)
Example system_application_id_bytes :
  build_attestation_application_id system_application_id
  = Val ([ x30; x18; x31; x14; x30; x12; x04; x0d ]
         ++ list_byte_of_string "AndroidSystem"
         ++ [ x02; x01; x01; x31; x00 ]).
Proof. vm_compute. reflexivity. Qed.

(** C6, as the code has it.  For an ordinary uid: when the first answer is a transaction failure
    and the second is [Ok], the gatherer returns what the encoder makes of the
    second answer, which is a success whenever that answer is a valid input,
    and between the two calls there is exactly one reset (followed by the
    sleep and the reconnection); when all three answers are
    failures of whatever kind, the gatherer makes exactly [kMaxAttempts] = 3
    calls, returns [GET_ATTESTATION_APPLICATION_ID_FAILED], and resets once
    per transaction failure, hence never for three service specific errors. *)
Theorem C6_retry_and_reset_policy :
  forall (w : world) (uid : N),
    unprivileged uid ->
    (forall id0 id,
       replies w uid 2 = [(EX_TRANSACTION_FAILED, id0); (EX_NONE, id)] ->
       fst (gather_attestation_application_id uid w) = build_attestation_application_id id /\
       (valid_input id ->
        exists out, fst (gather_attestation_application_id uid w) = Val out) /\
       trace (snd (gather_attestation_application_id uid w))
         = trace w
           ++ (if connected w then [] else [WaitForService])
           ++ [ GetKeyAttestationApplicationId uid; ResetService;
                Usleep kRetryIntervalUsecs;
                WaitForService; GetKeyAttestationApplicationId uid ]) /\
    (Forall (fun r => status_isOk (fst r) = false) (replies w uid kMaxAttempts) ->
     fst (gather_attestation_application_id uid w)
       = Err GET_ATTESTATION_APPLICATION_ID_FAILED /\
     count_events is_rpc (trace (snd (gather_attestation_application_id uid w)))
       = (count_events is_rpc (trace w) + 3)%nat /\
     count_events is_reset (trace (snd (gather_attestation_application_id uid w)))
       = (count_events is_reset (trace w)
          + length (filter is_transaction_failed (map fst (replies w uid kMaxAttempts))))%nat /\
     ((forall r, In r (replies w uid kMaxAttempts) ->
                 exists code, fst r = EX_SERVICE_SPECIFIC code) ->
      count_events is_reset (trace (snd (gather_attestation_application_id uid w)))
        = count_events is_reset (trace w))).
Proof.
  intros w uid Hun.
  destruct (gather_unprivileged uid w Hun) as [Hres Htr]. cbv zeta in Hres.
  split.
  - intros id0 id Hrep.
    change (replies w uid kMaxAttempts)
      with (replies w uid 2 ++ [provider w (calls w + 2)%nat uid]) in Hres, Htr.
    rewrite Hres, Htr, Hrep.
    cbn [app retry_result status_isOk fst snd map retry_policy].
    split; [reflexivity|]. split; [|reflexivity].
    intro Hvalid. apply encode_valid_succeeds. exact Hvalid.
  - intro Hfail. split.
    + rewrite Hres.
      rewrite (retry_result_all_fail _ Hfail); [reflexivity|].
      left. unfold replies, kMaxAttempts. discriminate.
    + rewrite Htr, !count_events_app.
      assert (Hfail' : Forall (fun s => status_isOk s = false)
                         (map fst (replies w uid kMaxAttempts))).
      { apply Forall_map. exact Hfail. }
      destruct (retry_policy_all_fail uid _ Hfail' (connected w)) as (Hrpc & Hreset & _).
      rewrite Hrpc, Hreset.
      split; [rewrite length_map; unfold replies; rewrite length_map, length_seq;
              reflexivity|].
      split; [reflexivity|].
      intro Hss.
      assert (Hnone : forall l : list (binder_Status * KeyAttestationApplicationId),
                 (forall r, In r l -> exists code, fst r = EX_SERVICE_SPECIFIC code) ->
                 filter is_transaction_failed (map fst l) = []).
      { induction l as [|r l IH]; intro Hl; [reflexivity|].
        cbn [map filter]. destruct (Hl r (or_introl eq_refl)) as [code ->].
        cbn [is_transaction_failed]. apply IH. intros r' Hr'. apply Hl. right. exact Hr'. }
      rewrite (Hnone _ Hss). cbn [length]. lia.
Qed.

(** C6 as amended, at a provider that first fails in transport and then answers with
    scenario 3, and at a provider that fails three times in three ways. *)
Lemma C6_witness_flaky_and_failing :
  (fst (gather_attestation_application_id 10001 flaky_world)
     = build_attestation_application_id shared_uid_packages /\
   (exists out, fst (gather_attestation_application_id 10001 flaky_world) = Val out) /\
   trace (snd (gather_attestation_application_id 10001 flaky_world))
     = [ WaitForService; GetKeyAttestationApplicationId 10001; ResetService;
         Usleep kRetryIntervalUsecs;
         WaitForService; GetKeyAttestationApplicationId 10001 ]) /\
  (fst (gather_attestation_application_id 10001 failing_world)
     = Err GET_ATTESTATION_APPLICATION_ID_FAILED /\
   count_events is_rpc (trace (snd (gather_attestation_application_id 10001 failing_world)))
     = (count_events is_rpc (trace failing_world) + 3)%nat /\
   count_events is_reset (trace (snd (gather_attestation_application_id 10001 failing_world)))
     = (count_events is_reset (trace failing_world)
        + length (filter is_transaction_failed
                    (map fst (replies failing_world 10001 kMaxAttempts))))%nat).
Proof.
  assert (Hun : unprivileged 10001) by (split; discriminate).
  split.
  - destruct (proj1 (C6_retry_and_reset_policy flaky_world 10001 Hun)
                (mkApplicationId []) shared_uid_packages eq_refl)
      as (Hres & Hok & Htr).
    split; [exact Hres|]. split; [|exact Htr].
    apply Hok. split; [discriminate | repeat constructor; discriminate].
  - destruct (proj2 (C6_retry_and_reset_policy failing_world 10001 Hun))
      as (Hres & Hrpc & Hreset & _).
    + repeat constructor.
    + repeat split; assumption.
Defined.

(** C6, as the spec has it, fails: when the first answer is a transaction
    failure and the second is [Ok] without any package, the gatherer resets
    once between its two calls and then fails with [BAD_VALUE], the encoder's
    verdict on the second answer. *)
Lemma C6_counterexample_ok_answer_without_packages :
  unprivileged 10001 /\
  replies flaky_empty_world 10001 2
    = [(EX_TRANSACTION_FAILED, mkApplicationId []); (EX_NONE, mkApplicationId [])] /\
  trace (snd (gather_attestation_application_id 10001 flaky_empty_world))
    = [ WaitForService; GetKeyAttestationApplicationId 10001; ResetService;
        Usleep kRetryIntervalUsecs;
        WaitForService; GetKeyAttestationApplicationId 10001 ] /\
  fst (gather_attestation_application_id 10001 flaky_empty_world) = Err BAD_VALUE /\
  isOk (fst (gather_attestation_application_id 10001 flaky_empty_world)) = false.
Proof.
  split; [split; discriminate|].
  vm_compute. repeat split; reflexivity.
Qed.

(** Scenarios 5 and 6 of the spec, run. *)
Example retry_scenarios_run :
  isOk (fst (gather_attestation_application_id 10001 flaky_world)) = true /\
  count_events is_rpc (trace (snd (gather_attestation_application_id 10001 flaky_world)))
    = 2%nat /\
  count_events is_reset (trace (snd (gather_attestation_application_id 10001 flaky_world)))
    = 1%nat /\
  count_events is_rpc
    (trace (snd (gather_attestation_application_id 10001 service_specific_world))) = 3%nat /\
  count_events is_reset
    (trace (snd (gather_attestation_application_id 10001 service_specific_world))) = 0%nat /\
  count_events is_sleep
    (trace (snd (gather_attestation_application_id 10001 service_specific_world))) = 3%nat.
Proof. vm_compute. repeat split; reflexivity. Qed.

(** C7, as the code has it.  When all three answers are service specific
    errors, the gatherer returns [GET_ATTESTATION_APPLICATION_ID_FAILED] after
    three calls, each followed by a sleep of [kRetryIntervalUsecs]: two sleeps
    between attempts and a third after the last attempt; there is no reset. *)
Theorem C7_three_sleeps_after_three_service_specific_errors :
  forall (w : world) (uid : N) (c1 c2 c3 : Z),
    unprivileged uid ->
    map fst (replies w uid kMaxAttempts)
      = [EX_SERVICE_SPECIFIC c1; EX_SERVICE_SPECIFIC c2; EX_SERVICE_SPECIFIC c3] ->
    fst (gather_attestation_application_id uid w)
      = Err GET_ATTESTATION_APPLICATION_ID_FAILED /\
    trace (snd (gather_attestation_application_id uid w))
      = trace w
        ++ (if connected w then [] else [WaitForService])
        ++ [ GetKeyAttestationApplicationId uid; Usleep kRetryIntervalUsecs;
             GetKeyAttestationApplicationId uid; Usleep kRetryIntervalUsecs;
             GetKeyAttestationApplicationId uid; Usleep kRetryIntervalUsecs ] /\
    count_events is_sleep (trace (snd (gather_attestation_application_id uid w)))
      = (count_events is_sleep (trace w) + 3)%nat /\
    count_events is_reset (trace (snd (gather_attestation_application_id uid w)))
      = count_events is_reset (trace w).
Proof.
  intros w uid c1 c2 c3 Hun Hrep.
  destruct (gather_unprivileged uid w Hun) as [Hres Htr]. cbv zeta in Hres.
  rewrite Hres, Htr, Hrep, !count_events_app. clear Hres Htr.
  split; [|split; [|split]].
  - destruct (replies w uid kMaxAttempts) as [|[s1 i1] [|[s2 i2] [|[s3 i3] [|]]]];
      try discriminate.
    cbn [map fst] in Hrep. injection Hrep as -> -> ->. reflexivity.
  - cbn [retry_policy]. destruct (connected w); reflexivity.
  - cbn [retry_policy]. destruct (connected w); reflexivity.
  - cbn [retry_policy]. destruct (connected w); cbn; lia.
Qed.

(** C7, as the spec has it, fails: with a provider that answers every call
    with the service specific error 7, a fresh process sleeps three times,
    not twice, and the last thing it does is sleep. *)
Lemma C7_counterexample_trailing_sleep :
  fst (gather_attestation_application_id 10001 service_specific_world)
    = Err GET_ATTESTATION_APPLICATION_ID_FAILED /\
  count_events is_rpc
    (trace (snd (gather_attestation_application_id 10001 service_specific_world))) = 3%nat /\
  count_events is_sleep
    (trace (snd (gather_attestation_application_id 10001 service_specific_world))) <> 2%nat /\
  last (trace (snd (gather_attestation_application_id 10001 service_specific_world)))
       WaitForService
    = Usleep kRetryIntervalUsecs.
Proof. vm_compute. repeat split; try reflexivity. discriminate. Qed.

(** C7 as amended, at the same provider. *)
Lemma C7_witness_service_specific_world :
  fst (gather_attestation_application_id 10001 service_specific_world)
    = Err GET_ATTESTATION_APPLICATION_ID_FAILED /\
  trace (snd (gather_attestation_application_id 10001 service_specific_world))
    = [] ++ [WaitForService]
      ++ [ GetKeyAttestationApplicationId 10001; Usleep kRetryIntervalUsecs;
           GetKeyAttestationApplicationId 10001; Usleep kRetryIntervalUsecs;
           GetKeyAttestationApplicationId 10001; Usleep kRetryIntervalUsecs ] /\
  count_events is_sleep
    (trace (snd (gather_attestation_application_id 10001 service_specific_world)))
    = (count_events is_sleep (trace service_specific_world) + 3)%nat /\
  count_events is_reset
    (trace (snd (gather_attestation_application_id 10001 service_specific_world)))
    = count_events is_reset (trace service_specific_world).
Proof.
  apply (C7_three_sleeps_after_three_service_specific_errors
           service_specific_world 10001 7 7 7).
  - split; discriminate.
  - reflexivity.
Defined.

(** C10.  For an ordinary uid, when the provider answers [Ok] within the
    three attempts but with an empty package list, the gatherer returns the
    encoder's [BAD_VALUE], not [GET_ATTESTATION_APPLICATION_ID_FAILED]. *)
Theorem C10_ok_answer_without_packages_is_bad_value :
  forall (w : world) (uid : N)
         (pre post : list (binder_Status * KeyAttestationApplicationId)),
    unprivileged uid ->
    replies w uid kMaxAttempts = pre ++ (EX_NONE, mkApplicationId []) :: post ->
    Forall (fun r => status_isOk (fst r) = false) pre ->
    fst (gather_attestation_application_id uid w) = Err BAD_VALUE /\
    fst (gather_attestation_application_id uid w)
      <> Err GET_ATTESTATION_APPLICATION_ID_FAILED.
Proof.
  intros w uid pre post Hun Hrep Hpre.
  destruct (gather_unprivileged uid w Hun) as [Hres _]. cbv zeta in Hres.
  rewrite Hrep, (retry_result_first_ok pre post _ Hpre) in Hres.
  cbn [fst snd status_isOk] in Hres.
  rewrite Hres.
  change (build_attestation_application_id (mkApplicationId [])) with (@Err bytes BAD_VALUE).
  split; [reflexivity | discriminate].
Qed.

(** C10, at a provider that answers [Ok] with no package on the first call. *)
Lemma C10_witness_empty_world :
  fst (gather_attestation_application_id 10001 empty_world) = Err BAD_VALUE /\
  fst (gather_attestation_application_id 10001 empty_world)
    <> Err GET_ATTESTATION_APPLICATION_ID_FAILED.
Proof.
  apply (C10_ok_answer_without_packages_is_bad_value empty_world 10001 []
           [(EX_NONE, mkApplicationId []); (EX_NONE, mkApplicationId [])]).
  - split; discriminate.
  - reflexivity.
  - constructor.
Defined.

(* ===================================================================== *)
(** ** The gatherer: further properties *)
(* ===================================================================== *)

(** The world the loop leaves behind. *)
Lemma retry_loop_final (n : nat) :
  forall uid status id0 w,
    calls (snd (retry_loop n uid status id0 w))
      = (calls w + attempts_made (map fst (replies w uid n)))%nat /\
    connected (snd (retry_loop n uid status id0 w))
      = final_connected (connected w) (map fst (replies w uid n)).
Proof.
  induction n as [|n IH]; intros uid status id0 w.
  - cbn. split; [lia | reflexivity].
  - rewrite replies_succ. cbn [map attempts_made final_connected].
    cbn [retry_loop]. unfold bind, get_service, getKeyAttestationApplicationId.
    unfold connected.
    destruct (gService w) as [pm|] eqn:Hg;
      cbn [fst snd gService connections calls provider trace];
      destruct (provider w (calls w) uid) as [st id] eqn:Hr; cbn [fst snd];
      destruct st; cbn [status_isOk];
      unfold ret, usleep, log, reset_service;
      cbn [fst snd gService connections calls provider trace];
      rewrite ?Hg;
      try (split; [lia | reflexivity]);
      match goal with
      | |- context [retry_loop n uid ?s id0 ?w1] =>
          destruct (IH uid s id0 w1) as (Hcalls & Hconn)
      end;
      unfold replies, connected in Hcalls, Hconn;
      cbn [gService connections calls provider trace] in Hcalls, Hconn;
      rewrite ?Hg in Hcalls, Hconn;
      rewrite Hcalls, Hconn; (split; [lia | reflexivity]).
Qed.

Lemma gather_unprivileged_world (uid : N) (w : world) :
  unprivileged uid ->
  snd (gather_attestation_application_id uid w)
  = snd (retry_loop kMaxAttempts uid EX_NONE (mkApplicationId []) w).
Proof.
  intros [Hsys Hroot]. unfold gather_attestation_application_id.
  apply N.eqb_neq in Hsys, Hroot. rewrite Hsys, Hroot. cbn [orb].
  unfold bind.
  destruct (retry_loop kMaxAttempts uid EX_NONE (mkApplicationId []) w) as [r w'].
  destruct (negb (status_isOk (fst r))); reflexivity.
Qed.

(** What the policy does on a list of answers, counted. *)
Lemma retry_policy_counts (uid : N) (statuses : list binder_Status) :
  forall c,
    count_events is_rpc (retry_policy uid c statuses) = attempts_made statuses /\
    (count_events is_sleep (retry_policy uid c statuses)
     + (if existsb status_isOk statuses then 1 else 0)
     = attempts_made statuses)%nat /\
    (count_events is_reset (retry_policy uid c statuses)
     <= count_events is_sleep (retry_policy uid c statuses))%nat /\
    Forall (fun e => is_sleep e = true -> e = Usleep kRetryIntervalUsecs)
           (retry_policy uid c statuses).
Proof.
  induction statuses as [|s rest IH]; intro c.
  - cbn. repeat split; try lia. constructor.
  - cbn [retry_policy attempts_made existsb].
    assert (Hhead : forall f t, f WaitForService = false ->
               count_events f ((if c then [] else [WaitForService]) ++ t) = count_events f t).
    { intros f t Hf. unfold count_events. destruct c; cbn [app filter]; rewrite ?Hf; reflexivity. }
    rewrite !Hhead by reflexivity.
    assert (Hall : forall t,
               Forall (fun e => is_sleep e = true -> e = Usleep kRetryIntervalUsecs) t ->
               Forall (fun e => is_sleep e = true -> e = Usleep kRetryIntervalUsecs)
                      ((if c then [] else [WaitForService]) ++ t)).
    { intros t Ht. destruct c; cbn [app]; [exact Ht|]. constructor; [discriminate | exact Ht]. }
    destruct s; cbn [status_isOk orb];
      try (match goal with
           | |- context [retry_policy uid ?b rest] => destruct (IH b) as (H1 & H2 & H3 & H4)
           end);
      unfold count_events in *; cbn [filter is_rpc is_sleep is_reset length];
      (split; [|split; [|split]]);
      try lia;
      try (apply Hall; repeat (constructor; [first [discriminate | reflexivity]|]);
           first [exact H4 | constructor]).
Qed.

Lemma attempts_made_first_ok (pre post : list binder_Status) :
  Forall (fun s => status_isOk s = false) pre ->
  attempts_made (pre ++ EX_NONE :: post) = S (length pre) /\
  existsb status_isOk (pre ++ EX_NONE :: post) = true /\
  (forall c, final_connected c (pre ++ EX_NONE :: post) = true) /\
  (forall uid c,
     count_events is_reset (retry_policy uid c (pre ++ EX_NONE :: post))
     = length (filter is_transaction_failed pre)).
Proof.
  induction 1 as [|s rest Hs _ (IH1 & IH2 & IH3 & IH4)].
  - repeat split; try reflexivity. intros uid c. unfold count_events. destruct c; reflexivity.
  - cbn [app attempts_made existsb final_connected length]. rewrite Hs, IH1, IH2.
    split; [reflexivity|]. split; [reflexivity|]. split.
    + intro c. destruct s; try discriminate; apply IH3.
    + intros uid c. cbn [retry_policy]. rewrite count_events_app.
      destruct s; try discriminate; cbn [filter is_transaction_failed length];
        match goal with
        | |- context [retry_policy uid ?b (rest ++ _)] => specialize (IH4 uid b)
        end;
        unfold count_events in *; destruct c; cbn [filter is_reset length app Nat.add];
        rewrite IH4; reflexivity.
Qed.

(** X11.  For an ordinary uid the gatherer stops at the first [Ok] answer:
    when the first [n] answers fail and the next one is [Ok], it makes [n + 1]
    calls and no more, sleeps [n] times, resets once per transaction failure
    among the [n], keeps the proxy, and returns what the encoder makes of the
    [Ok] answer. *)
Theorem X11_gatherer_stops_at_the_first_ok_answer :
  forall (w : world) (uid : N)
         (pre post : list (binder_Status * KeyAttestationApplicationId))
         (id : KeyAttestationApplicationId),
    unprivileged uid ->
    replies w uid kMaxAttempts = pre ++ (EX_NONE, id) :: post ->
    Forall (fun r => status_isOk (fst r) = false) pre ->
    let w' := snd (gather_attestation_application_id uid w) in
    fst (gather_attestation_application_id uid w) = build_attestation_application_id id /\
    calls w' = (calls w + S (length pre))%nat /\
    count_events is_rpc (trace w') = (count_events is_rpc (trace w) + S (length pre))%nat /\
    count_events is_sleep (trace w') = (count_events is_sleep (trace w) + length pre)%nat /\
    count_events is_reset (trace w')
      = (count_events is_reset (trace w)
         + length (filter is_transaction_failed (map fst pre)))%nat /\
    connected w' = true.
Proof.
  intros w uid pre post id Hun Hrep Hpre. cbv zeta.
  destruct (gather_unprivileged uid w Hun) as [Hres Htr]. cbv zeta in Hres.
  rewrite (gather_unprivileged_world uid w Hun).
  destruct (retry_loop_final kMaxAttempts uid EX_NONE (mkApplicationId []) w)
    as [Hcalls Hconn].
  rewrite (gather_unprivileged_world uid w Hun) in Htr.
  rewrite Hres, Htr, Hcalls, Hconn, Hrep, !count_events_app.
  rewrite (retry_result_first_ok pre post id Hpre).
  rewrite map_app. cbn [map fst snd status_isOk].
  assert (Hpre' : Forall (fun s => status_isOk s = false) (map fst pre))
    by (apply Forall_map; exact Hpre).
  destruct (attempts_made_first_ok (map fst pre) (map fst post) Hpre')
    as (Hmade & Hex & Hfinal & Hreset).
  destruct (retry_policy_counts uid (map fst pre ++ EX_NONE :: map fst post) (connected w))
    as (Hrpc & Hsleep & _ & _).
  rewrite Hex, Hmade in Hsleep. rewrite Hmade in Hrpc.
  rewrite Hmade, Hrpc, Hreset, Hfinal, length_map in *.
  repeat split; try reflexivity. lia.
Qed.

(** X11, at a provider whose only failure is the first answer. *)
Lemma X11_witness_flaky_world :
  let w' := snd (gather_attestation_application_id 10001 flaky_world) in
  fst (gather_attestation_application_id 10001 flaky_world)
    = build_attestation_application_id shared_uid_packages /\
  calls w' = (calls flaky_world + 2)%nat /\
  count_events is_rpc (trace w') = (count_events is_rpc (trace flaky_world) + 2)%nat /\
  count_events is_sleep (trace w') = (count_events is_sleep (trace flaky_world) + 1)%nat /\
  count_events is_reset (trace w')
    = (count_events is_reset (trace flaky_world)
       + length (filter is_transaction_failed
                   (map fst [(EX_TRANSACTION_FAILED, mkApplicationId [])])))%nat /\
  connected w' = true.
Proof.
  apply (X11_gatherer_stops_at_the_first_ok_answer flaky_world 10001
           [(EX_TRANSACTION_FAILED, mkApplicationId [])]
           [(EX_NONE, shared_uid_packages)] shared_uid_packages).
  - split; discriminate.
  - reflexivity.
  - repeat constructor.
Defined.

(** The only failure of the encoder is [BAD_VALUE]. *)
Lemma package_loop_error_is_BAD_VALUE (pkgs : list KeyAttestationPackageInfo) :
  forall est0 stack rc, package_loop pkgs est0 stack = Err rc -> rc = BAD_VALUE.
Proof.
  induction pkgs as [|p rest IH]; intros est0 stack rc Hrun; cbn [package_loop] in Hrun;
    [discriminate|].
  unfold build_attestation_package_info in Hrun.
  destruct (packageName p) as [name|]; [|congruence].
  cbv zeta in Hrun.
  match type of Hrun with (if ?c then _ else _) = _ => destruct c end;
    [discriminate | eapply IH; exact Hrun].
Qed.

Lemma build_error_is_BAD_VALUE (id : KeyAttestationApplicationId) (rc : status_code) :
  build_attestation_application_id id = Err rc -> rc = BAD_VALUE.
Proof.
  unfold build_attestation_application_id, build_KM_ATTESTATION_APPLICATION_ID.
  destruct (packageInfos id) as [|pinfo others]; [congruence|].
  destruct (package_loop (pinfo :: others) AAID_GENERAL_OVERHEAD []) as [rc'|[est st]] eqn:Hrun.
  - intro H. injection H as <-. eapply package_loop_error_is_BAD_VALUE. exact Hrun.
  - cbv zeta.
    destruct (digest_loop (map signature2SHA256 (signatures pinfo)) est []); discriminate.
Qed.

Lemma retry_result_isOk (answers : list (binder_Status * KeyAttestationApplicationId)) :
  forall status id0,
    answers <> [] ->
    status_isOk (fst (retry_result answers status id0))
    = existsb status_isOk (map fst answers).
Proof.
  induction answers as [|r rest IH]; intros status id0 Hne; [congruence|].
  cbn [retry_result map existsb].
  destruct (status_isOk (fst r)) eqn:Hr; [exact Hr|]. cbn [orb].
  destruct rest as [|r' rest]; [cbn; exact Hr|].
  apply IH. discriminate.
Qed.

Lemma existsb_isOk_false (answers : list (binder_Status * KeyAttestationApplicationId)) :
  existsb status_isOk (map fst answers) = false
  <-> Forall (fun r => status_isOk (fst r) = false) answers.
Proof.
  induction answers as [|r rest IH]; cbn [map existsb].
  - split; [constructor | reflexivity].
  - rewrite orb_false_iff, IH. split.
    + intros [H1 H2]. constructor; assumption.
    + intro H. inversion H; subst. split; assumption.
Qed.

Lemma attempts_made_bounds (statuses : list binder_Status) :
  statuses <> [] -> (1 <= attempts_made statuses <= length statuses)%nat.
Proof.
  induction statuses as [|s rest IH]; intro Hne; [congruence|].
  cbn [attempts_made length]. destruct (status_isOk s); [lia|].
  destruct rest as [|s' rest]; [cbn; lia|].
  specialize (IH ltac:(discriminate)). cbn [length] in *. lia.
Qed.

(** X12.  For an ordinary uid and whatever the provider answers: the result
    is [GET_ATTESTATION_APPLICATION_ID_FAILED] exactly when all three answers
    fail; the gatherer makes at least one call and at most three; it sleeps
    after every failed call and only then, each time for
    [kRetryIntervalUsecs]; and it never resets more often than it sleeps. *)
Theorem X12_lookup_fails_only_after_three_failures :
  forall (w : world) (uid : N),
    unprivileged uid ->
    let w' := snd (gather_attestation_application_id uid w) in
    let ok := existsb status_isOk (map fst (replies w uid kMaxAttempts)) in
    (fst (gather_attestation_application_id uid w) = Err GET_ATTESTATION_APPLICATION_ID_FAILED
     <-> Forall (fun r => status_isOk (fst r) = false) (replies w uid kMaxAttempts)) /\
    (1 <= calls w' - calls w <= 3)%nat /\
    count_events is_rpc (trace w') = (count_events is_rpc (trace w) + (calls w' - calls w))%nat /\
    (count_events is_sleep (trace w') + (if ok then 1 else 0)
     = count_events is_sleep (trace w) + (calls w' - calls w))%nat /\
    (count_events is_reset (trace w') + count_events is_sleep (trace w)
     <= count_events is_reset (trace w) + count_events is_sleep (trace w'))%nat /\
    Forall (fun e => is_sleep e = true -> e = Usleep kRetryIntervalUsecs)
           (skipn (length (trace w)) (trace w')).
Proof.
  intros w uid Hun. cbv zeta.
  destruct (gather_unprivileged uid w Hun) as [Hres Htr]. cbv zeta in Hres.
  rewrite (gather_unprivileged_world uid w Hun) in *.
  destruct (retry_loop_final kMaxAttempts uid EX_NONE (mkApplicationId []) w)
    as [Hcalls _].
  assert (Hne : replies w uid kMaxAttempts <> []) by (unfold replies, kMaxAttempts; discriminate).
  assert (Hne' : map fst (replies w uid kMaxAttempts) <> [])
    by (unfold replies, kMaxAttempts; discriminate).
  assert (Hlen : length (map fst (replies w uid kMaxAttempts)) = 3%nat)
    by (unfold replies; rewrite !length_map, length_seq; reflexivity).
  pose proof (attempts_made_bounds _ Hne') as Hmade. rewrite Hlen in Hmade.
  destruct (retry_policy_counts uid (map fst (replies w uid kMaxAttempts)) (connected w))
    as (Hrpc & Hsleep & Hreset & Hdur).
  rewrite Htr, Hcalls, !count_events_app.
  replace (calls w + attempts_made (map fst (replies w uid kMaxAttempts)) - calls w)%nat
    with (attempts_made (map fst (replies w uid kMaxAttempts))) by lia.
  split; [|repeat split; try lia].
  - rewrite Hres, (retry_result_isOk _ EX_NONE (mkApplicationId []) Hne).
    rewrite <- existsb_isOk_false.
    destruct (existsb status_isOk (map fst (replies w uid kMaxAttempts))).
    + split; [|discriminate].
      intro Hbuild. apply build_error_is_BAD_VALUE in Hbuild. discriminate.
    + split; reflexivity.
  - rewrite skipn_app, skipn_all, Nat.sub_diag. exact Hdur.
Qed.

(** X12, at the provider that fails three times in three ways. *)
Lemma X12_witness_failing_world :
  let w' := snd (gather_attestation_application_id 10001 failing_world) in
  let ok := existsb status_isOk (map fst (replies failing_world 10001 kMaxAttempts)) in
  (fst (gather_attestation_application_id 10001 failing_world)
     = Err GET_ATTESTATION_APPLICATION_ID_FAILED
   <-> Forall (fun r => status_isOk (fst r) = false)
              (replies failing_world 10001 kMaxAttempts)) /\
  (1 <= calls w' - calls failing_world <= 3)%nat /\
  count_events is_rpc (trace w')
    = (count_events is_rpc (trace failing_world) + (calls w' - calls failing_world))%nat /\
  (count_events is_sleep (trace w') + (if ok then 1 else 0)
   = count_events is_sleep (trace failing_world) + (calls w' - calls failing_world))%nat /\
  (count_events is_reset (trace w') + count_events is_sleep (trace failing_world)
   <= count_events is_reset (trace failing_world) + count_events is_sleep (trace w'))%nat /\
  Forall (fun e => is_sleep e = true -> e = Usleep kRetryIntervalUsecs)
         (skipn (length (trace failing_world)) (trace w')).
Proof.
  apply (X12_lookup_fails_only_after_three_failures failing_world 10001).
  split; discriminate.
Defined.

Lemma retry_policy_without_transaction_failure (uid : N) (statuses : list binder_Status) :
  Forall (fun s => is_transaction_failed s = false) statuses ->
  forall c,
    count_events is_wait (retry_policy uid c statuses)
      = (if c then 0 else match statuses with [] => 0 | _ => 1 end)%nat /\
    count_events is_reset (retry_policy uid c statuses) = 0%nat /\
    final_connected c statuses = match statuses with [] => c | _ => true end.
Proof.
  induction 1 as [|s rest Hs _ IH]; intro c.
  - destruct c; repeat split; reflexivity.
  - cbn [retry_policy final_connected]. rewrite !count_events_app.
    destruct s; try discriminate;
      try (destruct (IH true) as (H1 & H2 & H3));
      unfold count_events in *; destruct c;
      cbn [filter is_wait is_reset length app Nat.add];
      rewrite ?H1, ?H2, ?H3; repeat split; try reflexivity;
      destruct rest; reflexivity.
Qed.

Lemma final_connected_all_fail (statuses : list binder_Status) :
  Forall (fun s => status_isOk s = false) statuses ->
  statuses <> [] ->
  forall c, final_connected c statuses = negb (is_transaction_failed (last statuses EX_NONE)).
Proof.
  induction 1 as [|s rest Hs Hrest IH]; intros Hne c; [congruence|].
  destruct rest as [|s' rest].
  - destruct s; try discriminate; reflexivity.
  - change (last (s :: s' :: rest) EX_NONE) with (last (s' :: rest) EX_NONE).
    assert (Hne' : s' :: rest <> []) by discriminate.
    specialize (IH Hne'). revert IH. generalize (s' :: rest). intros l IH.
    destruct s; try discriminate; cbn [final_connected]; apply IH.
Qed.

(** X13.  For an ordinary uid: as long as no answer is a transaction
    failure, the gatherer connects at most once, namely when no proxy was
    cached, never resets, and leaves a proxy cached; and when all three
    answers fail, a proxy is cached afterwards exactly when the last answer
    was not a transaction failure. *)
Theorem X13_the_proxy_is_reused_unless_a_transaction_fails :
  forall (w : world) (uid : N),
    unprivileged uid ->
    let w' := snd (gather_attestation_application_id uid w) in
    (Forall (fun r => is_transaction_failed (fst r) = false) (replies w uid kMaxAttempts) ->
     count_events is_wait (trace w')
       = (count_events is_wait (trace w) + (if connected w then 0 else 1))%nat /\
     count_events is_reset (trace w') = count_events is_reset (trace w) /\
     connected w' = true) /\
    (Forall (fun r => status_isOk (fst r) = false) (replies w uid kMaxAttempts) ->
     connected w'
     = negb (is_transaction_failed (last (map fst (replies w uid kMaxAttempts)) EX_NONE))).
Proof.
  intros w uid Hun. cbv zeta.
  destruct (gather_unprivileged uid w Hun) as [_ Htr].
  rewrite (gather_unprivileged_world uid w Hun) in *.
  destruct (retry_loop_final kMaxAttempts uid EX_NONE (mkApplicationId []) w)
    as [_ Hconn].
  assert (Hne : map fst (replies w uid kMaxAttempts) <> [])
    by (unfold replies, kMaxAttempts; discriminate).
  rewrite Htr, Hconn, !count_events_app. split.
  - intro Hno.
    destruct (retry_policy_without_transaction_failure uid
                (map fst (replies w uid kMaxAttempts))
                ltac:(apply Forall_map; exact Hno) (connected w)) as (Hwait & Hreset & Hfinal).
    rewrite Hwait, Hreset, Hfinal.
    destruct (map fst (replies w uid kMaxAttempts)); [congruence|].
    repeat split; try reflexivity. lia.
  - intro Hfail. apply final_connected_all_fail; [|exact Hne].
    apply Forall_map. exact Hfail.
Qed.

(** X13, at the provider that answers with service specific errors, and at
    the one that fails in three ways. *)
Lemma X13_witness_service_specific_and_failing :
  (count_events is_wait (trace (snd (gather_attestation_application_id 10001
                                       service_specific_world)))
     = (count_events is_wait (trace service_specific_world)
        + (if connected service_specific_world then 0 else 1))%nat /\
   count_events is_reset (trace (snd (gather_attestation_application_id 10001
                                        service_specific_world)))
     = count_events is_reset (trace service_specific_world) /\
   connected (snd (gather_attestation_application_id 10001 service_specific_world)) = true) /\
  connected (snd (gather_attestation_application_id 10001 failing_world))
  = negb (is_transaction_failed
            (last (map fst (replies failing_world 10001 kMaxAttempts)) EX_NONE)).
Proof.
  assert (Hun : unprivileged 10001) by (split; discriminate).
  split.
  - apply (proj1 (X13_the_proxy_is_reused_unless_a_transaction_fails
                    service_specific_world 10001 Hun)).
    repeat constructor.
  - apply (proj2 (X13_the_proxy_is_reused_unless_a_transaction_fails
                    failing_world 10001 Hun)).
    repeat constructor.
Defined.

(** X14.  [get_service] fills the proxy slot and is idempotent: a second
    call hands out the same proxy and changes nothing.  [reset_service]
    empties the slot, and the [get_service] after it connects anew and hands
    out a proxy other than the one dropped. *)
Theorem X14_get_service_caches_and_reset_service_drops :
  forall w : world,
    world_ok w ->
    let w1 := snd (get_service w) in
    let w2 := snd (reset_service w1) in
    connected w1 = true /\
    world_ok w1 /\
    get_service w1 = (fst (get_service w), w1) /\
    connected w2 = false /\
    fst (get_service w2) <> fst (get_service w) /\
    trace (snd (get_service w2)) = trace w1 ++ [ResetService; WaitForService] /\
    world_ok (snd (get_service w2)).
Proof.
  intros w Hok. cbv zeta. unfold world_ok, connected, get_service, reset_service in *.
  destruct (gService w) as [pm|] eqn:Hg;
    cbn [fst snd gService connections calls provider trace]; rewrite ?Hg;
    cbn [fst snd gService connections calls provider trace];
    rewrite <- ?app_assoc; repeat split; try reflexivity; try lia.
Qed.

(** X14, at a fresh process. *)
Lemma X14_witness_fresh_world :
  let w1 := snd (get_service empty_world) in
  let w2 := snd (reset_service w1) in
  connected w1 = true /\
  world_ok w1 /\
  get_service w1 = (fst (get_service empty_world), w1) /\
  connected w2 = false /\
  fst (get_service w2) <> fst (get_service empty_world) /\
  trace (snd (get_service w2)) = trace w1 ++ [ResetService; WaitForService] /\
  world_ok (snd (get_service w2)).
Proof.
  apply (X14_get_service_caches_and_reset_service_drops empty_world).
  exact I.
Defined.
